(** * The Magoo WiFi provisioning page (esp32_stt/wifi_portal.h)

    The header holds one constant, [PORTAL_HTML]: an HTML page whose script
    scans for networks ([scanNetworks], GET /scan) and submits credentials
    (the [onsubmit] handler of [configForm], POST /save).  This file embeds
    that script and the part of the markup it acts on:

    - [Js]     the values [response.json()] produces and the JavaScript
               conversions the script applies to them;
    - [Html]   how the browser reads the markup the script assigns to
               [innerHTML];
    - [Portal] the elements of the page, the script's callbacks and the
               events that run them.

    Strings are [string]s holding the UTF-8 encoding of the page's text.

    The script runs in a browser.  Three things that the browser does and
    that are not spelled out below are parameters: the conversion of
    strings to numbers ([StringToNumber]), the digits of numbers that are
    no small integers ([NumberToString]), and the elements made from
    markup that [Html] does not read, with their [value]s and validity
    ([Browser]). *)

From Stdlib Require Import String Ascii List ZArith Bool Lia DecimalString.
Import ListNotations.
Open Scope string_scope.
Set Warnings "-register-all".

(* ================================================================== *)
(** ** JavaScript values *)

Module Js.

(** What [JSON.parse] yields.  A number is a double: [JNum n] when its
    value is the integer [n] (what the scan contract sends for [rssi]; [-0]
    behaves as [0] in all the script does), [JFrac m e] when it is
    [m / 2^e], not an integer. *)
Inductive json : Type :=
| JNull
| JBool (b : bool)
| JNum (n : Z)
| JStr (s : string)
| JArr (elements : list json)
| JObj (members : list (string * json))
| JFrac (m : Z) (e : positive).

(** The result of an expression over parsed JSON: a property that is not
    there reads as [undefined]. *)
Inductive value : Type :=
| Undefined
| Json (j : json).

(** An object's own property.  [JSON.parse] keeps the last of several members
    with one name. *)
Fixpoint get_own (key : string) (members : list (string * json)) : option json :=
  match members with
  | [] => None
  | (k, v) :: rest =>
      match get_own key rest with
      | Some w => Some w
      | None => if String.eqb k key then Some v else None
      end
  end.

(** [v.key] for the data names the script reads ([networks], [ssid], [rssi],
    [success], [message]); none of them is a property of a prototype.
    [None] is the TypeError of reading a property of [null] or [undefined]. *)
Definition get (key : string) (v : value) : option value :=
  match v with
  | Undefined => None
  | Json JNull => None
  | Json (JObj members) =>
      Some (match get_own key members with
            | Some j => Json j
            | None => Undefined
            end)
  | Json _ => Some Undefined
  end.

(** ToBoolean. *)
Definition truthy (v : value) : bool :=
  match v with
  | Undefined => false
  | Json JNull => false
  | Json (JBool b) => b
  | Json (JNum n) => negb (n =? 0)%Z
  | Json (JStr s) => negb (String.eqb s EmptyString)
  | Json (JArr _) => true
  | Json (JObj _) => true
  | Json (JFrac m _) => negb (m =? 0)%Z
  end.

(** [a || b]. *)
Definition or_else (a b : value) : value :=
  if truthy a then a else b.

(** Number::toString writes the shortest digits that give the double
    back.  For an integer of no more than 2^53 in magnitude, where every
    integer is a double of its own, these are all its decimal digits.
    Beyond that they may be fewer, filled up with zeros
    ([1152921504606847000] for 2^60), from 10^21 on with an exponent
    ([1e+21]), and for a number that is not an integer with a decimal
    point; those digits are the runtime's to find. *)
Class NumberToString := {
  large_text : Z -> string;                 (* an integer beyond 2^53 *)
  fraction_text : Z -> positive -> string   (* [m / 2^e] *)
}.

Definition safe_integer : Z := 2 ^ 53.

Definition number_to_string `{NumberToString} (n : Z) : string :=
  if (Z.abs n <=? safe_integer)%Z then NilZero.string_of_int (Z.to_int n)
  else large_text n.

(** The string a value turns into when it is concatenated to a string.
    An array joins its elements with commas, [null] elements as empty
    strings.  An object prints as [[object Object]] through
    [Object.prototype.toString]; a member named [toString] shadows that
    method with something that cannot be called, and the conversion throws
    ([None]). *)
Fixpoint to_string `{NumberToString} (j : json) : option string :=
  match j with
  | JNull => Some "null"
  | JBool true => Some "true"
  | JBool false => Some "false"
  | JNum n => Some (number_to_string n)
  | JStr s => Some s
  | JArr elements =>
      let element (x : json) (conv : option string) : option string :=
        match x with
        | JNull => Some EmptyString
        | _ => conv
        end in
      (fix join (l : list json) : option string :=
         match l with
         | [] => Some EmptyString
         | [x] => element x (to_string x)
         | x :: rest =>
             match element x (to_string x), join rest with
             | Some s, Some r => Some (s ++ "," ++ r)
             | _, _ => None
             end
         end) elements
  | JObj members =>
      match get_own "toString" members with
      | Some _ => None
      | None => Some "[object Object]"
      end
  | JFrac m e => Some (fraction_text m e)
  end.

Definition value_to_string `{NumberToString} (v : value) : option string :=
  match v with
  | Undefined => Some "undefined"
  | Json j => to_string j
  end.

(** [s + v] with a string on the left. *)
Definition concat `{NumberToString} (s : string) (v : value) : option string :=
  option_map (String.append s) (value_to_string v).

(** The number of UTF-16 code units of a string given in UTF-8: one for each
    character, two for a character outside the basic plane (a four-byte
    sequence); continuation bytes count for nothing. *)
Fixpoint utf16_length (s : string) : Z :=
  match s with
  | EmptyString => 0
  | String c rest =>
      let b := N_of_ascii c in
      ((if (b <? 128)%N then 1
        else if (b <? 192)%N then 0
        else if (b <? 240)%N then 1
        else 2) + utf16_length rest)%Z
  end.

(** [v.length]: arrays and strings have one, an object may have a member of
    that name, numbers and booleans have none. *)
Definition get_length (v : value) : option value :=
  match v with
  | Undefined => None
  | Json JNull => None
  | Json (JArr elements) => Some (Json (JNum (Z.of_nat (List.length elements))))
  | Json (JStr s) => Some (Json (JNum (utf16_length s)))
  | Json (JObj members) =>
      Some (match get_own "length" members with
            | Some j => Json j
            | None => Undefined
            end)
  | Json _ => Some Undefined
  end.

(** Whether the number a string converts to (StringToNumber) exceeds zero.
    The conversion belongs to the JavaScript runtime; the script meets it
    only when [networks] is an object with a [length] member that is a
    string or an array. *)
Class StringToNumber := string_gt_zero : string -> bool.

(** [v > 0].  [undefined] and [[object Object]] convert to NaN, [null] to 0,
    [true] to 1; an array converts through its string.  [None] when the
    conversion to a primitive throws. *)
Definition gt_zero `{NumberToString} `{StringToNumber} (v : value) : option bool :=
  match v with
  | Undefined => Some false
  | Json JNull => Some false
  | Json (JBool b) => Some b
  | Json (JNum n) => Some (0 <? n)%Z
  | Json (JStr s) => Some (string_gt_zero s)
  | Json (JArr elements) => option_map string_gt_zero (to_string (JArr elements))
  | Json (JObj members) => option_map (fun _ => false) (to_string (JObj members))
  | Json (JFrac m _) => Some (0 <? m)%Z
  end.

End Js.

(* ================================================================== *)
(** ** Markup assigned to [innerHTML] *)

Module Html.

(** The script assigns markup to the [innerHTML] of two [<div>]s (a row and
    the [#networks] list).  What becomes of it is the browser's doing, not
    the page's: the markup is parsed as a fragment in a [<div>], the
    tokenizer starting in its data state and the tree built in the "in body"
    insertion mode.  This module is modelled from the HTML standard's
    tokenizer and tree construction, for text and for [<div>], [<span>] and
    [<input>] tags with their attributes, state by state.  Where the standard does
    more than that (character references after an ampersand, comments and
    declarations, other elements, NUL and carriage return) the functions
    give [None]: nothing is claimed about such markup. *)

Inductive node : Type :=
| Text (data : string)
| Element (name : string) (attributes : list (string * string))
          (children : list node).

Record tag : Type := {
  is_end : bool;
  tag_name : string;
  tag_attributes : list (string * string)
}.

Inductive token : Type :=
| Character (c : ascii)
| Tag (t : tag).

(** *** Tokenizer *)

Inductive state : Type :=
| Data
| TagOpen
| EndTagOpen
| TagName (t : tag)
| BeforeAttributeName (t : tag)
| AttributeName (t : tag) (name : string)
| AfterAttributeName (t : tag) (name : string)
| BeforeAttributeValue (t : tag) (name : string)
| AttributeValueDoubleQuoted (t : tag) (name value : string)
| AttributeValueSingleQuoted (t : tag) (name value : string)
| AttributeValueUnquoted (t : tag) (name value : string)
| AfterAttributeValueQuoted (t : tag)
| SelfClosingStartTag (t : tag).

(** The double quote. *)
Definition quotation_mark : ascii := ascii_of_nat 34.

(** Tab, line feed, form feed and space. *)
Definition is_space (c : ascii) : bool :=
  Ascii.eqb c "009" || Ascii.eqb c "010" || Ascii.eqb c "012" || Ascii.eqb c " ".

Definition is_upper (c : ascii) : bool :=
  ((65 <=? N_of_ascii c) && (N_of_ascii c <=? 90))%N.

Definition is_alpha (c : ascii) : bool :=
  is_upper c || ((97 <=? N_of_ascii c) && (N_of_ascii c <=? 122))%N.

Definition lower (c : ascii) : ascii :=
  if is_upper c then ascii_of_N (N_of_ascii c + 32) else c.

Definition snoc (s : string) (c : ascii) : string :=
  s ++ String c EmptyString.

Definition new_tag (closing : bool) (c : ascii) : tag :=
  {| is_end := closing; tag_name := String (lower c) EmptyString;
     tag_attributes := [] |}.

Definition name_more (t : tag) (c : ascii) : tag :=
  {| is_end := is_end t; tag_name := snoc (tag_name t) (lower c);
     tag_attributes := tag_attributes t |}.

(** An attribute whose name the tag already has is dropped. *)
Definition add_attribute (t : tag) (name value : string) : tag :=
  if existsb (fun a => String.eqb (fst a) name) (tag_attributes t) then t
  else {| is_end := is_end t; tag_name := tag_name t;
          tag_attributes := tag_attributes t ++ [(name, value)] |}.

Definition data (c : ascii) : option (list token * state) :=
  if Ascii.eqb c "&" then None
  else if Ascii.eqb c "<" then Some ([], TagOpen)
  else Some ([Character c], Data).

Definition before_attribute_name (t : tag) (c : ascii)
  : option (list token * state) :=
  if is_space c then Some ([], BeforeAttributeName t)
  else if Ascii.eqb c "/" then Some ([], SelfClosingStartTag t)
  else if Ascii.eqb c ">" then Some ([Tag t], Data)
  else Some ([], AttributeName t (String (lower c) EmptyString)).

Definition after_attribute_name (t : tag) (name : string) (c : ascii)
  : option (list token * state) :=
  if is_space c then Some ([], AfterAttributeName t name)
  else if Ascii.eqb c "/" then Some ([], SelfClosingStartTag (add_attribute t name EmptyString))
  else if Ascii.eqb c "=" then Some ([], BeforeAttributeValue t name)
  else if Ascii.eqb c ">" then Some ([Tag (add_attribute t name EmptyString)], Data)
  else Some ([], AttributeName (add_attribute t name EmptyString)
                               (String (lower c) EmptyString)).

Definition attribute_value_unquoted (t : tag) (name value : string) (c : ascii)
  : option (list token * state) :=
  if is_space c then Some ([], BeforeAttributeName (add_attribute t name value))
  else if Ascii.eqb c "&" then None
  else if Ascii.eqb c ">" then Some ([Tag (add_attribute t name value)], Data)
  else Some ([], AttributeValueUnquoted t name (snoc value c)).

Definition attribute_value_quoted (quote : ascii) (t : tag) (name value : string)
    (again : string -> state) (c : ascii) : option (list token * state) :=
  if Ascii.eqb c quote then Some ([], AfterAttributeValueQuoted (add_attribute t name value))
  else if Ascii.eqb c "&" then None
  else Some ([], again (snoc value c)).

(** One character in one state: the tokens emitted and the next state. *)
Definition step (s : state) (c : ascii) : option (list token * state) :=
  if Ascii.eqb c "000" || Ascii.eqb c "013" then None
  else
    match s with
    | Data => data c
    | TagOpen =>
        if Ascii.eqb c "!" || Ascii.eqb c "?" then None
        else if Ascii.eqb c "/" then Some ([], EndTagOpen)
        else if is_alpha c then Some ([], TagName (new_tag false c))
        else option_map (fun r => (Character "<" :: fst r, snd r)) (data c)
    | EndTagOpen =>
        if is_alpha c then Some ([], TagName (new_tag true c))
        else if Ascii.eqb c ">" then Some ([], Data)
        else None
    | TagName t =>
        if is_space c then Some ([], BeforeAttributeName t)
        else if Ascii.eqb c "/" then Some ([], SelfClosingStartTag t)
        else if Ascii.eqb c ">" then Some ([Tag t], Data)
        else Some ([], TagName (name_more t c))
    | BeforeAttributeName t => before_attribute_name t c
    | AttributeName t name =>
        if is_space c || Ascii.eqb c "/" || Ascii.eqb c ">" then after_attribute_name t name c
        else if Ascii.eqb c "=" then Some ([], BeforeAttributeValue t name)
        else Some ([], AttributeName t (snoc name (lower c)))
    | AfterAttributeName t name => after_attribute_name t name c
    | BeforeAttributeValue t name =>
        if is_space c then Some ([], BeforeAttributeValue t name)
        else if Ascii.eqb c quotation_mark then Some ([], AttributeValueDoubleQuoted t name EmptyString)
        else if Ascii.eqb c "'" then Some ([], AttributeValueSingleQuoted t name EmptyString)
        else if Ascii.eqb c ">" then Some ([Tag (add_attribute t name EmptyString)], Data)
        else attribute_value_unquoted t name EmptyString c
    | AttributeValueDoubleQuoted t name value =>
        attribute_value_quoted quotation_mark t name value (AttributeValueDoubleQuoted t name) c
    | AttributeValueSingleQuoted t name value =>
        attribute_value_quoted "'" t name value (AttributeValueSingleQuoted t name) c
    | AttributeValueUnquoted t name value => attribute_value_unquoted t name value c
    | AfterAttributeValueQuoted t =>
        if is_space c then Some ([], BeforeAttributeName t)
        else if Ascii.eqb c "/" then Some ([], SelfClosingStartTag t)
        else if Ascii.eqb c ">" then Some ([Tag t], Data)
        else before_attribute_name t c
    | SelfClosingStartTag t =>
        if Ascii.eqb c ">" then Some ([Tag t], Data)
        else before_attribute_name t c
    end.

(** At the end of the input: a pending [<] or [</] is text, an unfinished
    tag is dropped. *)
Definition at_end (s : state) : list token :=
  match s with
  | TagOpen => [Character "<"]
  | EndTagOpen => [Character "<"; Character "/"]
  | _ => []
  end.

(** The tokens of an input read from a state, and the state it ends in. *)
Fixpoint feed (s : state) (input : string) : option (list token * state) :=
  match input with
  | EmptyString => Some ([], s)
  | String c rest =>
      match step s c with
      | None => None
      | Some (out, s') =>
          match feed s' rest with
          | None => None
          | Some (more, s'') => Some ((out ++ more)%list, s'')
          end
      end
  end.

Definition tokens (input : string) : option (list token) :=
  match feed Data input with
  | None => None
  | Some (out, s) => Some (out ++ at_end s)%list
  end.

(** *** Tree construction *)

(** An element that is still open; its children so far, last first. *)
Record open_element : Type := {
  open_name : string;
  open_attributes : list (string * string);
  open_children : list node
}.

(** The stack of open elements, innermost first, and the children of the
    fragment's root, last first. *)
Definition builder : Type := (list open_element * list node)%type.

(** A character joins the text node it follows. *)
Definition insert_character (c : ascii) (children : list node) : list node :=
  match children with
  | Text s :: before => Text (snoc s c) :: before
  | _ => Text (String c EmptyString) :: children
  end.

Definition insert_node (n : node) (b : builder) : builder :=
  match b with
  | (e :: outer, root) =>
      ({| open_name := open_name e; open_attributes := open_attributes e;
          open_children := n :: open_children e |} :: outer, root)
  | ([], root) => ([], n :: root)
  end.

Definition closed (e : open_element) : node :=
  Element (open_name e) (open_attributes e) (rev (open_children e)).

(** Pops the current node. *)
Definition pop (b : builder) : builder :=
  match b with
  | (e :: outer, root) => insert_node (closed e) (outer, root)
  | ([], root) => b
  end.

Fixpoint pops (n : nat) (b : builder) : builder :=
  match n with
  | O => b
  | S n' => pops n' (pop b)
  end.

(** How many elements to pop to close the innermost one of the name. *)
Fixpoint depth_of (name : string) (stack : list open_element) : option nat :=
  match stack with
  | [] => None
  | e :: outer =>
      if String.eqb (open_name e) name then Some 1
      else option_map S (depth_of name outer)
  end.

(** One token "in body".  An [<input>] start tag inserts an element that
    holds nothing and is not left open; [</input>] is ignored (no open
    element has the name, and the search for one ends at a special element,
    the root at the latest).  [<div>] and [<span>] start tags insert an
    element.  [</div>] closes the innermost open [<div>] with all inside it,
    and is ignored when none is open.  [</span>] closes the current node
    when that is a [<span>], and is ignored when it is a [<div>] (a special
    element ends the search for the [<span>]) or when nothing is open. *)
Definition tree_step (k : token) (b : builder) : option builder :=
  match k with
  | Character c =>
      Some (match b with
            | (e :: outer, root) =>
                ({| open_name := open_name e;
                    open_attributes := open_attributes e;
                    open_children := insert_character c (open_children e) |}
                   :: outer, root)
            | ([], root) => ([], insert_character c root)
            end)
  | Tag t =>
      let name := tag_name t in
      if String.eqb name "input" then
        Some (if is_end t then b
              else insert_node (Element name (tag_attributes t) []) b)
      else if negb (String.eqb name "div" || String.eqb name "span") then None
      else if negb (is_end t) then
        Some ({| open_name := name; open_attributes := tag_attributes t;
                 open_children := [] |} :: fst b, snd b)
      else if String.eqb name "div" then
        Some (match depth_of "div" (fst b) with
              | Some n => pops n b
              | None => b
              end)
      else
        Some (match fst b with
              | e :: _ => if String.eqb (open_name e) "span" then pop b else b
              | [] => b
              end)
  end.

Fixpoint build (ks : list token) (b : builder) : option builder :=
  match ks with
  | [] => Some b
  | k :: rest =>
      match tree_step k b with
      | None => None
      | Some b' => build rest b'
      end
  end.

(** At the end of the input every open element is closed. *)
Definition finish (b : builder) : list node :=
  rev (snd (pops (List.length (fst b)) b)).

(** The children an element gets from [element.innerHTML = markup]. *)
Definition parse_fragment (markup : string) : option (list node) :=
  match tokens markup with
  | None => None
  | Some ks =>
      match build ks ([], []) with
      | None => None
      | Some b => Some (finish b)
      end
  end.

(** The text a node shows: the text nodes under it, in order. *)
Fixpoint text_content (n : node) : string :=
  match n with
  | Text s => s
  | Element _ _ children =>
      (fix all (l : list node) : string :=
         match l with
         | [] => EmptyString
         | x :: rest => text_content x ++ all rest
         end) children
  end.

Definition text_of (l : list node) : string :=
  String.concat EmptyString (map text_content l).

(** Text that reaches the page as it is: no [<] and no [&], and neither of
    the characters set aside above. *)
Definition plain_char (c : ascii) : bool :=
  negb (Ascii.eqb c "000" || Ascii.eqb c "013" || Ascii.eqb c "&" || Ascii.eqb c "<").

Fixpoint plain (s : string) : bool :=
  match s with
  | EmptyString => true
  | String c rest => plain_char c && plain rest
  end.

End Html.

(* ================================================================== *)
(** ** The page and its script *)

Module Portal.
Import Js.

(** The double quote, for the attribute values inside the script's markup. *)
Definition dq : string := String (ascii_of_nat 34) EmptyString.

(** *** Elements made from markup

    What [innerHTML] puts into the [#networks] list: text and elements, each
    element with its name and attributes and with what the script has
    written to it since, the [display] of its inline style and its [value]
    property. *)

Inductive element : Type :=
| TextNode (data : string)
| Elem (name : string) (attributes : list (string * string))
       (style_display : option string) (el_value : option value)
       (children : list element).

Fixpoint of_node (n : Html.node) : element :=
  match n with
  | Html.Text s => TextNode s
  | Html.Element name attributes children =>
      Elem name attributes None None (map of_node children)
  end.

(** The value of an attribute. *)
Fixpoint attribute (name : string) (attributes : list (string * string))
    : option string :=
  match attributes with
  | [] => None
  | (k, v) :: rest => if String.eqb k name then Some v else attribute name rest
  end.

Fixpoint lowercase (s : string) : string :=
  match s with
  | EmptyString => EmptyString
  | String c rest => String (Html.lower c) (lowercase rest)
  end.

(** A [<div>] or a [<span>]: an element without a [value] of its own and
    without a part in the form's validation. *)
Definition plain_element (name : string) : bool :=
  String.eqb name "div" || String.eqb name "span".

(** An [<input>] that is a text field: it has no [type], or the [type]
    [text] in any case of letters. *)
Definition text_input (name : string) (attributes : list (string * string))
    : bool :=
  String.eqb name "input" &&
  match attribute "type" attributes with
  | None => true
  | Some type => String.eqb (lowercase type) "text"
  end.

(** Elements of which the form's validation has nothing to say: [<div>]s
    and [<span>]s, and text fields with neither [required] nor [pattern]
    (the other constraints of a text field bear on what the user has
    typed into it). *)
Definition unconstrained (attributes : list (string * string)) : bool :=
  match attribute "required" attributes, attribute "pattern" attributes with
  | None, None => true
  | _, _ => false
  end.

Fixpoint inert (e : element) : bool :=
  match e with
  | TextNode _ => true
  | Elem name attributes _ _ children =>
      (plain_element name || (text_input name attributes && unconstrained attributes))
      && forallb inert children
  end.

(** The browser, where the page depends on it beyond [Html]: the elements
    it makes from any markup (those of [Html.parse_fragment] where that
    reads the markup; an element of SVG or MathML is named with its
    namespace, so that [div], [span] and [input] name HTML elements), the
    [value] of an element that is neither a [<div>], a [<span>] nor a text
    field (a checkbox, a [<select>], ...: [foreign_set_value] gives [None]
    when the assignment throws), and the validity of the form controls
    among the elements of the list. *)
Class Browser := {
  parse_dom : string -> list element;
  parse_dom_modelled :
    forall markup nodes,
      Html.parse_fragment markup = Some nodes ->
      parse_dom markup = map of_node nodes;
  foreign_value : element -> value;
  foreign_set_value : value -> element -> option element;
  controls_valid : list element -> bool;
  controls_valid_inert :
    forall l, forallb inert l = true -> controls_valid l = true
}.

(** The element's id is the value of its [id] attribute. *)
Definition has_id (id : string) (attributes : list (string * string)) : bool :=
  match attribute "id" attributes with
  | Some v => String.eqb v id
  | None => false
  end.

(** The first of a list for which [f] gives something. *)
Definition first_some {A B : Type} (f : A -> option B) : list A -> option B :=
  fix go (l : list A) : option B :=
    match l with
    | [] => None
    | x :: rest =>
        match f x with
        | Some b => Some b
        | None => go rest
        end
    end.

(** The list with the first element that [f] changes changed. *)
Definition change_first {A : Type} (f : A -> option A) : list A -> option (list A) :=
  fix go (l : list A) : option (list A) :=
    match l with
    | [] => None
    | x :: rest =>
        match f x with
        | Some x' => Some (x' :: rest)
        | None => option_map (cons x) (go rest)
        end
    end.

(** The first element with an id in tree order: a node comes before its
    children, and those before what follows it. *)
Fixpoint find (id : string) (e : element) : option element :=
  match e with
  | TextNode _ => None
  | Elem _ attributes _ _ children =>
      if has_id id attributes then Some e
      else first_some (find id) children
  end.

(** The tree with that element replaced by [f] of it; [None] when there is
    none. *)
Fixpoint update (id : string) (f : element -> element) (e : element)
    : option element :=
  match e with
  | TextNode _ => None
  | Elem name attributes d v children =>
      if has_id id attributes then Some (f e)
      else option_map (Elem name attributes d v)
                      (change_first (update id f) children)
  end.

Definition find_in (id : string) (l : list element) : option element :=
  first_some (find id) l.

Definition update_in (id : string) (f : element -> element) (l : list element)
    : list element :=
  match change_first (update id f) l with
  | Some l' => l'
  | None => l
  end.

(** [element.style.display = d]. *)
Definition with_style_display (d : string) (e : element) : element :=
  match e with
  | Elem name attributes _ v children => Elem name attributes (Some d) v children
  | TextNode _ => e
  end.

(** [element.textContent = t]: whatever the element held is replaced by one
    text, or by nothing when the text is empty. *)
Definition text_children (t : string) : list element :=
  match t with
  | EmptyString => []
  | _ => [TextNode t]
  end.

Definition with_textContent (t : string) (e : element) : element :=
  match e with
  | Elem name attributes d v _ => Elem name attributes d v (text_children t)
  | TextNode _ => e
  end.

(** A text field keeps no line breaks in its value: line feeds and carriage
    returns are taken out of what is assigned. *)
Definition is_line_break (c : ascii) : bool :=
  Ascii.eqb c "010" || Ascii.eqb c "013".

Fixpoint strip_newlines (s : string) : string :=
  match s with
  | EmptyString => EmptyString
  | String c rest =>
      if is_line_break c then strip_newlines rest
      else String c (strip_newlines rest)
  end.

Fixpoint has_line_break (s : string) : bool :=
  match s with
  | EmptyString => false
  | String c rest => is_line_break c || has_line_break rest
  end.

(** What a text field makes of a value assigned to its [value]: a string
    ([null] gives the empty string) without line breaks.  [None] when the
    conversion to a string throws. *)
Definition field_text `{NumberToString} (x : value) : option string :=
  match x with
  | Json JNull => Some EmptyString
  | _ => option_map strip_newlines (value_to_string x)
  end.

(** [element.value] and [element.value = x] for an element of the list.  On
    a [<div>] or a [<span>], [value] is a property like any other: it holds
    what was assigned, as it was assigned, and [undefined] before.  A text
    field holds a string: what was assigned, as a text field takes it, and
    before that its [value] attribute without line breaks, or the empty
    string. *)
Definition read_value `{Browser} (e : element) : value :=
  match e with
  | Elem name attributes _ v _ =>
      if plain_element name then
        match v with
        | Some x => x
        | None => Undefined
        end
      else if text_input name attributes then
        match v with
        | Some x => x
        | None =>
            Json (JStr match attribute "value" attributes with
                       | Some s => strip_newlines s
                       | None => EmptyString
                       end)
        end
      else foreign_value e
  | TextNode _ => Undefined
  end.

Definition write_value `{Browser} `{NumberToString} (x : value) (e : element)
    : option element :=
  match e with
  | Elem name attributes d _ children =>
      if plain_element name then Some (Elem name attributes d (Some x) children)
      else if text_input name attributes then
        match field_text x with
        | Some s => Some (Elem name attributes d (Some (Json (JStr s))) children)
        | None => None
        end
      else foreign_set_value x e
  | TextNode _ => None
  end.

(** *** Elements of the page

    [<button class="scan-btn">], the two [<input>]s of [configForm], the
    [#networks] list and the [#success] and [#error] banners.  A property
    of these holds the string that was written to it ([textContent],
    [style.display], [value]). *)

Record button : Type := {
  btn_textContent : string;
  btn_disabled : bool
}.

Record input : Type := {
  input_value : string;
  input_required : bool          (* the [required] attribute *)
}.

Record banner : Type := {
  div_textContent : string;
  div_display : string           (* [style.display] *)
}.

(** [item.onclick = () => document.getElementById('ssid').value = network.ssid]:
    the listener keeps the [network] it was created for. *)
Inductive listener : Type :=
| SelectNetwork (network : json).

(** A [<div>] made by [document.createElement('div')]. *)
Record item : Type := {
  className : string;
  innerHTML : string;
  onclick : option listener
}.

(** [#networks]: its inline [display], the markup last assigned to its
    [innerHTML], the rows appended after that assignment, and its children
    in the document: the elements made from that markup, then one [<div>]
    for each row with the elements made from the row's markup. *)
Record list_box : Type := {
  box_display : string;
  box_innerHTML : string;
  box_appended : list item;
  box_children : list element
}.

Record page : Type := {
  scan_btn : button;
  networks : list_box;
  ssid : input;
  password : input;
  success : banner;
  error : banner
}.

(** The texts of the scan button, at rest and during a scan, and of the
    error banner: a mark followed by a label. *)
Definition idle_label : string := "WiFiをスキャン".
Definition scanning_label : string := "スキャン中...".
Definition error_prefix : string := "❌ ".
Definition generic_label : string := "エラー".

(** The page as the markup declares it.  The stylesheet gives [.networks],
    [.success] and [.error] [display: none]; no element has an inline style. *)
Definition initial_page : page := {|
  scan_btn := {| btn_textContent := idle_label; btn_disabled := false |};
  networks := {| box_display := EmptyString; box_innerHTML := EmptyString;
                 box_appended := []; box_children := [] |};
  ssid := {| input_value := EmptyString; input_required := true |};
  password := {| input_value := EmptyString; input_required := false |};
  success := {| div_textContent := "✅ 接続中...再起動します";
                div_display := EmptyString |};
  error := {| div_textContent := error_prefix ++ generic_label;
              div_display := EmptyString |}
|}.

(** An element of class [networks], [success] or [error] is on screen when
    its inline [display] overrides the stylesheet's [none]. *)
Definition shown (display : string) : bool :=
  negb (String.eqb display EmptyString) && negb (String.eqb display "none").

(** *** Property writes *)

Definition set_scan_btn (text : string) (off : bool) (p : page) : page :=
  {| scan_btn := {| btn_textContent := text; btn_disabled := off |};
     networks := networks p; ssid := ssid p; password := password p;
     success := success p; error := error p |}.

Definition set_networks (b : list_box) (p : page) : page :=
  {| scan_btn := scan_btn p; networks := b; ssid := ssid p;
     password := password p; success := success p; error := error p |}.

(** [networksDiv.innerHTML = html] replaces whatever the list held. *)
Definition set_networks_innerHTML `{Browser} (html : string) (p : page) : page :=
  set_networks {| box_display := box_display (networks p);
                  box_innerHTML := html; box_appended := [];
                  box_children := parse_dom html |} p.

Definition set_networks_display (d : string) (p : page) : page :=
  set_networks {| box_display := d;
                  box_innerHTML := box_innerHTML (networks p);
                  box_appended := box_appended (networks p);
                  box_children := box_children (networks p) |} p.

(** A row in the document: the [<div>] with its class and the elements of
    its markup. *)
Definition row_element `{Browser} (i : item) : element :=
  Elem "div" [("class", className i)] None None (parse_dom (innerHTML i)).

Definition appendChild `{Browser} (i : item) (p : page) : page :=
  set_networks {| box_display := box_display (networks p);
                  box_innerHTML := box_innerHTML (networks p);
                  box_appended := box_appended (networks p) ++ [i];
                  box_children := box_children (networks p) ++ [row_element i] |} p.

Definition set_networks_children (l : list element) (p : page) : page :=
  set_networks {| box_display := box_display (networks p);
                  box_innerHTML := box_innerHTML (networks p);
                  box_appended := box_appended (networks p);
                  box_children := l |} p.

Definition set_ssid_value (v : string) (p : page) : page :=
  {| scan_btn := scan_btn p; networks := networks p;
     ssid := {| input_value := v; input_required := input_required (ssid p) |};
     password := password p; success := success p; error := error p |}.

Definition set_password_value (v : string) (p : page) : page :=
  {| scan_btn := scan_btn p; networks := networks p; ssid := ssid p;
     password := {| input_value := v;
                    input_required := input_required (password p) |};
     success := success p; error := error p |}.

Definition set_success (b : banner) (p : page) : page :=
  {| scan_btn := scan_btn p; networks := networks p; ssid := ssid p;
     password := password p; success := b; error := error p |}.

Definition set_error (b : banner) (p : page) : page :=
  {| scan_btn := scan_btn p; networks := networks p; ssid := ssid p;
     password := password p; success := success p; error := b |}.

Definition set_success_display (d : string) (p : page) : page :=
  set_success {| div_textContent := div_textContent (success p);
                 div_display := d |} p.

Definition set_error_display (d : string) (p : page) : page :=
  set_error {| div_textContent := div_textContent (error p);
               div_display := d |} p.

Definition set_error_textContent (t : string) (p : page) : page :=
  set_error {| div_textContent := t; div_display := div_display (error p) |} p.

(** *** [document.getElementById]

    The handlers of clicks and of /save look an element up each time they
    run, and get the first element with the id in tree order.  In the
    markup the [#networks] list comes before the two fields and the two
    banners: an element inside the list that carries the id is the one
    found, and the handler's write goes to it; the page's own element is
    found when the list holds none. *)
Definition in_list (id : string) (p : page) : option element :=
  find_in id (box_children (networks p)).

Definition update_list (id : string) (f : element -> element) (p : page) : page :=
  set_networks_children (update_in id f (box_children (networks p))) p.

(** [document.getElementById('success').style.display = d]. *)
Definition success_style_display (d : string) (p : page) : page :=
  match in_list "success" p with
  | Some _ => update_list "success" (with_style_display d) p
  | None => set_success_display d p
  end.

(** [document.getElementById('error').style.display = d]. *)
Definition error_style_display (d : string) (p : page) : page :=
  match in_list "error" p with
  | Some _ => update_list "error" (with_style_display d) p
  | None => set_error_display d p
  end.

(** [document.getElementById('error').textContent = t]. *)
Definition error_textContent (t : string) (p : page) : page :=
  match in_list "error" p with
  | Some _ => update_list "error" (with_textContent t) p
  | None => set_error_textContent t p
  end.

(** *** Callbacks

    A callback runs on the page and either returns or throws; what it wrote
    before throwing stays written. *)
Definition script (A : Type) : Type := page -> option A * page.

Definition ret {A} (a : A) : script A := fun p => (Some a, p).

Definition bind {A B} (c : script A) (k : A -> script B) : script B :=
  fun p =>
    match c p with
    | (Some a, p') => k a p'
    | (None, p') => (None, p')
    end.

(** An expression that may throw and writes nothing. *)
Definition eval {A} (o : option A) : script A := fun p => (o, p).

(** A property write. *)
Definition write (f : page -> page) : script unit := fun p => (Some tt, f p).

Declare Scope script_scope.
Delimit Scope script_scope with script.
Notation "x <- c ;; k" := (bind c (fun x => k))
  (at level 61, c at next level, right associativity) : script_scope.
Notation "c ;; k" := (bind c (fun _ => k))
  (at level 61, right associativity) : script_scope.
Open Scope script_scope.

(** [array.forEach(callback)]: the elements in order, until one throws. *)
Fixpoint for_each {A} (callback : A -> script unit) (l : list A) : script unit :=
  match l with
  | [] => ret tt
  | x :: rest => callback x ;; for_each callback rest
  end.

(** [v.forEach(callback)]: only an array has the method; calling what a
    string or an object has under that name throws. *)
Definition forEach (v : value) (callback : json -> script unit) : script unit :=
  match v with
  | Json (JArr elements) => for_each callback elements
  | _ => eval None
  end.

(** The three ways a [fetch(...).then(response => response.json())] ends:
    the request fails, the body is not JSON, or the body parses. *)
Inductive response : Type :=
| NetworkError
| NotJson
| Body (data : json).

(** [.then(on_value).catch(on_error)] after it: [on_error] runs when the
    chain rejected, also when [on_value] threw. *)
Definition settle (on_value : json -> script unit) (on_error : page -> page)
    (r : response) (p : page) : page :=
  match r with
  | Body data =>
      match on_value data p with
      | (Some _, p') => p'
      | (None, p') => on_error p'
      end
  | NetworkError | NotJson => on_error p
  end.

(** *** [scanNetworks] *)

Definition not_found_html : string :=
  "<div class=" ++ dq ++ "network-item" ++ dq ++ ">見つかりません</div>".

(** The statements before [fetch('/scan')]. *)
Definition scanNetworks (p : page) : page :=
  set_scan_btn scanning_label true p.

(** The markup of one row:
    ['<span>' + network.ssid + '</span><span class="signal">' + network.rssi + ' dBm</span>']. *)
Definition item_html `{NumberToString} (network : json) : option string :=
  match get "ssid" (Json network) with
  | None => None
  | Some name =>
      match concat "<span>" name with
      | None => None
      | Some s1 =>
          match get "rssi" (Json network) with
          | None => None
          | Some rssi =>
              match concat (s1 ++ "</span><span class=" ++ dq ++ "signal" ++ dq ++ ">") rssi with
              | None => None
              | Some s2 => Some (s2 ++ " dBm</span>")
              end
          end
      end
  end.

(** The body of [data.networks.forEach(network => ...)]. *)
Definition add_network `{Browser} `{NumberToString} (network : json) : script unit :=
  html <- eval (item_html network) ;;
  write (appendChild {| className := "network-item";
                        innerHTML := html;
                        onclick := Some (SelectNetwork network) |}).

(** [data.networks && data.networks.length > 0]. *)
Definition has_networks `{NumberToString} `{StringToNumber} (found : value)
    : option bool :=
  if truthy found then
    match get_length found with
    | None => None
    | Some len => gt_zero len
    end
  else Some false.

(** [.then(data => ...)]. *)
Definition scan_then `{Browser} `{NumberToString} `{StringToNumber} (data : json)
    : script unit :=
  write (set_networks_innerHTML EmptyString) ;;
  write (set_networks_display "block") ;;
  found <- eval (get "networks" (Json data)) ;;
  some <- eval (has_networks found) ;;
  (if some : bool then forEach found add_network
   else write (set_networks_innerHTML not_found_html)) ;;
  write (set_scan_btn idle_label false).

(** [.catch(err => ...)]. *)
Definition scan_catch (p : page) : page :=
  set_scan_btn idle_label false p.

Definition scan_settled `{Browser} `{NumberToString} `{StringToNumber}
    : response -> page -> page :=
  settle scan_then scan_catch.

(** A click on a row runs its listener,
    [document.getElementById('ssid').value = network.ssid].  When the
    element found is one of the list, it takes the value in its way.  When
    it is the SSID field, a text field, the value is turned into a string
    ([null] into the empty string) and loses its line breaks.  A listener
    that throws leaves the page as it was. *)
Definition run_listener `{Browser} `{NumberToString} (l : listener) (p : page)
    : page :=
  match l with
  | SelectNetwork network =>
      match get "ssid" (Json network) with
      | None => p
      | Some name =>
          match in_list "ssid" p with
          | Some e =>
              match write_value name e with
              | Some e' => update_list "ssid" (fun _ => e') p
              | None => p
              end
          | None =>
              match field_text name with
              | Some s => set_ssid_value s p
              | None => p
              end
          end
      end
  end.

(** *** [configForm.onsubmit] *)

(** The object given to [JSON.stringify] for the body of the POST: the
    [value]s of the elements found under the ids [ssid] and [password].  A
    property that is [undefined] is left out of the body. *)
Record credentials : Type := {
  cred_ssid : value;
  cred_password : value
}.

(** [document.getElementById(id).value], with [own] the field of the page
    that has the id. *)
Definition field_value `{Browser} (id : string) (own : input) (p : page) : value :=
  match in_list id p with
  | Some e => read_value e
  | None => Json (JStr (input_value own))
  end.

(** The handler up to [fetch('/save', ...)]: it writes nothing and sends
    what it reads. *)
Definition onsubmit `{Browser} (p : page) : credentials :=
  {| cred_ssid := field_value "ssid" (ssid p) p;
     cred_password := field_value "password" (password p) p |}.

(** [.then(result => ...)]. *)
Definition save_then `{NumberToString} (result : json) : script unit :=
  ok <- eval (get "success" (Json result)) ;;
  if truthy ok then
    write (success_style_display "block") ;;
    write (error_style_display "none")
  else
    message <- eval (get "message" (Json result)) ;;
    text <- eval (concat error_prefix (or_else message (Json (JStr generic_label)))) ;;
    write (error_textContent text) ;;
    write (error_style_display "block").

(** [.catch(() => ...)]. *)
Definition save_catch (p : page) : page :=
  error_style_display "block" p.

Definition save_settled `{NumberToString} : response -> page -> page :=
  settle save_then save_catch.

(** *** Events

    What happens to the page between two runs of the script: the user
    clicks and types, and requests end.  Beside the page, the state counts
    the requests under way and keeps what was posted to /save. *)

Record ui : Type := {
  doc : page;
  scans : nat;                   (* /scan requests under way *)
  saves : nat;                   (* /save requests under way *)
  posted : list credentials      (* the bodies sent to /save, oldest first *)
}.

Definition initial_ui : ui :=
  {| doc := initial_page; scans := 0; saves := 0; posted := [] |}.

Inductive event : Type :=
| ClickScan
| ScanSettles (r : response)
| ClickRow (n : nat)
| TypeSsid (s : string)
| TypePassword (s : string)
| Submit
| SaveSettles (r : response).

(** The form's validation before the [submit] event: a [required] field
    must not be empty.  The list is inside the form, and so are the form
    controls that markup has put there. *)
Definition valid (i : input) : bool :=
  negb (input_required i && String.eqb (input_value i) EmptyString).

Definition form_valid `{Browser} (p : page) : bool :=
  valid (ssid p) && valid (password p) && controls_valid (box_children (networks p)).

Definition set_doc (p : page) (u : ui) : ui :=
  {| doc := p; scans := scans u; saves := saves u; posted := posted u |}.

(** One event.  [None]: the event cannot happen in this state (a disabled
    button takes no click, nothing ends that was not started, there is no
    such row, a field holds no line break). *)
Definition step `{Browser} `{NumberToString} `{StringToNumber} (e : event) (u : ui)
    : option ui :=
  match e with
  | ClickScan =>
      if btn_disabled (scan_btn (doc u)) then None
      else Some {| doc := scanNetworks (doc u); scans := S (scans u);
                   saves := saves u; posted := posted u |}
  | ScanSettles r =>
      match scans u with
      | O => None
      | S n => Some {| doc := scan_settled r (doc u); scans := n;
                       saves := saves u; posted := posted u |}
      end
  | ClickRow n =>
      match nth_error (box_appended (networks (doc u))) n with
      | Some {| onclick := Some l |} => Some (set_doc (run_listener l (doc u)) u)
      | _ => None
      end
  | TypeSsid s =>
      if has_line_break s then None
      else Some (set_doc (set_ssid_value s (doc u)) u)
  | TypePassword s =>
      if has_line_break s then None
      else Some (set_doc (set_password_value s (doc u)) u)
  | Submit =>
      if form_valid (doc u) then
        Some {| doc := doc u; scans := scans u; saves := S (saves u);
                posted := posted u ++ [onsubmit (doc u)] |}
      else Some u
  | SaveSettles r =>
      match saves u with
      | O => None
      | S n => Some {| doc := save_settled r (doc u); scans := scans u;
                       saves := n; posted := posted u |}
      end
  end.

(** A sequence of events from a state. *)
Fixpoint run `{Browser} `{NumberToString} `{StringToNumber}
    (events : list event) (u : ui) : option ui :=
  match events with
  | [] => Some u
  | e :: rest =>
      match step e u with
      | Some u' => run rest u'
      | None => None
      end
  end.

End Portal.

(* ================================================================== *)
(** ** What the properties speak of *)

Import Js Html Portal.


(** A callback leaves a part [f] of the page as it found it, whether it
    returns or throws. *)
Definition unchanged {A : Type} (f : page -> A) (before after : page) : Prop :=
  f after = f before.

Definition keeps {A B : Type} (f : page -> A) (c : script B) : Prop :=
  forall p, unchanged f p (snd (c p)).

(** The scan button at rest and during a scan. *)
Definition idle_button : button :=
  {| btn_textContent := idle_label; btn_disabled := false |}.


(** A network as the scan contract describes it: an [ssid] that is a string
    and an [rssi] that is a number. *)
Definition network_of (network : json) (name : string) (rssi : Z) : Prop :=
  get "ssid" (Json network) = Some (Json (JStr name)) /\
  get "rssi" (Json network) = Some (Json (JNum rssi)).

Definition well_formed (network : json) : Prop :=
  exists name rssi, network_of network name rssi.

(** The row [add_network] makes for a network: a [network-item] whose markup
    is built from the network and whose listener selects it. *)
Definition row_of `{NumberToString} (network : json) (row : item) : Prop :=
  className row = "network-item" /\
  item_html network = Some (innerHTML row) /\
  onclick row = Some (SelectNetwork network).

(** The markup of a row, written out. *)
Definition row_markup `{NumberToString} (name : string) (rssi : Z) : string :=
  "<span>" ++ name ++ "</span><span class=" ++ dq ++ "signal" ++ dq ++ ">"
    ++ number_to_string rssi ++ " dBm</span>".

(** The text nodes for a text: none when it is empty. *)
Definition text_nodes (s : string) : list node :=
  match s with
  | EmptyString => []
  | _ => [Text s]
  end.

(** What a row shows when its markup is read as text in two [<span>]s. *)
Definition row_nodes `{NumberToString} (name : string) (rssi : Z) : list node :=
  [Element "span" [] (text_nodes name);
   Element "span" [("class", "signal")] [Text (number_to_string rssi ++ " dBm")]].


(** The /save handler takes its first branch: the body parsed and its
    [success] is truthy. *)
Definition accepted (r : response) : bool :=
  match r with
  | Body result =>
      match get "success" (Json result) with
      | Some ok => truthy ok
      | None => false
      end
  | NetworkError | NotJson => false
  end.


(** The row the callback makes for a network of the contract, with its
    markup written out. *)
Definition row_for `{NumberToString} (network : json) (row : item) : Prop :=
  exists name rssi,
    network_of network name rssi /\
    className row = "network-item" /\
    innerHTML row = row_markup name rssi /\
    onclick row = Some (SelectNetwork network).

(** A body for /save that carries the text of two fields. *)
Definition body_of (name secret : string) : credentials :=
  {| cred_ssid := Json (JStr name); cred_password := Json (JStr secret) |}.



(** A string-to-number conversion to run examples with; none of them
    reaches it.  Likewise for the digits of large and fractional numbers. *)
Definition no_numeric_strings : StringToNumber := fun _ => false.

Definition small_integers : NumberToString :=
  {| large_text := fun _ => EmptyString;
     fraction_text := fun _ _ => EmptyString |}.

(** A browser to run examples with: it makes of markup what [Html] makes
    of it; the examples hold no other markup, and no elements but [<div>]s
    and [<span>]s. *)
Definition html_only (markup : string) : list element :=
  match parse_fragment markup with
  | Some nodes => map of_node nodes
  | None => []
  end.

Definition simple_browser : Browser :=
  {| parse_dom := html_only;
     parse_dom_modelled := fun markup nodes (H : parse_fragment markup = Some nodes) =>
       @eq_ind_r _ (Some nodes)
         (fun o => match o with
                   | Some l => map of_node l
                   | None => []
                   end = map of_node nodes) eq_refl (parse_fragment markup) H;
     foreign_value := fun _ => Undefined;
     foreign_set_value := fun _ e => Some e;
     controls_valid := fun _ => true;
     controls_valid_inert := fun _ _ => eq_refl |}.

(** Scan and save responses used below. *)
Definition network (name : string) (rssi : Z) : json :=
  JObj [("ssid", JStr name); ("rssi", JNum rssi)].

Definition scan_body (l : list json) : response :=
  Body (JObj [("networks", JArr l)]).

Definition bad_password : response :=
  Body (JObj [("success", JBool false); ("message", JStr "bad password")]).

Definition saved : response :=
  Body (JObj [("success", JBool true)]).

(** The children of an element after a text is inserted at their end
    (children are kept last first while the tree is built). *)
Definition add_text (s : string) (children : list node) : list node :=
  match s with
  | EmptyString => children
  | _ =>
      match children with
      | Text before :: older => Text (before ++ s) :: older
      | _ => Text s :: children
      end
  end.

Definition with_text (s : string) (b : builder) : builder :=
  match b with
  | (e :: outer, root) =>
      ({| open_name := open_name e; open_attributes := open_attributes e;
          open_children := add_text s (open_children e) |} :: outer, root)
  | ([], root) => ([], add_text s root)
  end.

Definition characters (s : string) : list token :=
  map Character (list_ascii_of_string s).

(** The tags of a row's markup. *)
Definition span_start (attributes : list (string * string)) : token :=
  Tag {| is_end := false; tag_name := "span"; tag_attributes := attributes |}.

Definition span_end : token :=
  Tag {| is_end := true; tag_name := "span"; tag_attributes := [] |}.

(** The state after a sequence of events on the page as loaded. *)
Definition after (events : list event) : ui :=
  match @run simple_browser small_integers no_numeric_strings events initial_ui with
  | Some u => u
  | None => initial_ui
  end.

Definition home : json := network "home" (-50).
Definition cafe : json := network "cafe" (-71).

(** A write that leaves an element its name and its attributes. *)
Definition keeps_id (f : element -> element) : Prop :=
  forall name attributes d v children,
  exists d' v' children',
    f (Elem name attributes d v children) = Elem name attributes d' v' children'.

(** An element without its children. *)
Definition shell (e : element) : element :=
  match e with
  | Elem name attributes d v _ => Elem name attributes d v []
  | TextNode _ => e
  end.

(** The element found under a banner's id has what a write would give it
    ([f] changes nothing of it), also when it is the banner ([own]). *)
Definition success_is (f : element -> element) (own : banner -> Prop) (p : page)
    : Prop :=
  match in_list "success" p with
  | Some x => f x = x
  | None => own (success p)
  end.

Definition error_is (f : element -> element) (own : banner -> Prop) (p : page)
    : Prop :=
  match in_list "error" p with
  | Some x => f x = x
  | None => own (error p)
  end.

(** The element that a [<div>] with an id in the place of the [ssid] puts
    into the row: the browser makes the rest of the row its content. *)
Definition brought (id : string) (display : option string)
    (content : list element) : element :=
  Elem "div" [("id", id)] display None content.

Definition signal : list element :=
  [Elem "span" [("class", "signal")] None None [TextNode "-50 dBm"]].


(** A network of the contract whose [ssid] is plain text and whose [rssi]
    is an integer of no more than 2^53 in magnitude. *)
Definition plain_network `{NumberToString} (n : json) : Prop :=
  exists name rssi,
    network_of n name rssi /\ plain name = true /\ (Z.abs rssi <= safe_integer)%Z.







(** More bodies used below. *)
Definition hidden : json := network EmptyString (-80).
(* ================================================================== *)
(** ** Properties *)

(** *** Elements of the list *)

Lemma element_induction (P : element -> Prop) :
  (forall s, P (TextNode s)) ->
  (forall name attributes d v children,
      Forall P children -> P (Elem name attributes d v children)) ->
  forall e, P e.
Proof.
  intros Ht He.
  refine (fix go (e : element) : P e :=
            match e with
            | TextNode s => Ht s
            | Elem name attributes d v children =>
                He name attributes d v children
                   ((fix all (l : list element) : Forall P l :=
                       match l with
                       | [] => Forall_nil P
                       | x :: rest => Forall_cons x (go x) (all rest)
                       end) children)
            end).
Qed.

Lemma with_style_display_keeps_id (d : string) : keeps_id (with_style_display d).
Proof. intros name attributes d0 v children. now eexists _, _, _. Qed.

Lemma with_textContent_keeps_id (t : string) : keeps_id (with_textContent t).
Proof. intros name attributes d0 v children. now eexists _, _, _. Qed.

Lemma has_id_one (a b : string) (attributes : list (string * string)) :
  a <> b -> has_id a attributes = true -> has_id b attributes = false.
Proof.
  unfold has_id. intros Hab. destruct (attribute "id" attributes) as [v|]; [| easy].
  intros Ha. apply String.eqb_eq in Ha. subst v. now apply String.eqb_neq.
Qed.

(** Nothing is changed where nothing is found. *)
Lemma update_none (id : string) (f : element -> element) :
  forall e, find id e = None -> update id f e = None.
Proof.
  induction e as [s | name attributes d v children IH] using element_induction;
    cbn [find update]; [reflexivity |].
  destruct (has_id id attributes); [discriminate |].
  intros H. enough (E : change_first (update id f) children = None) by now rewrite E.
  induction IH as [|c rest Hc _ IHrest]; cbn [first_some change_first] in *;
    [reflexivity |].
  destruct (find id c) as [y|]; [discriminate |].
  rewrite (Hc eq_refl), (IHrest H). reflexivity.
Qed.

(** A write that changes nothing of the element found changes nothing. *)
Lemma update_fixed (id : string) (f : element -> element) :
  forall e x, find id e = Some x -> f x = x -> update id f e = Some e.
Proof.
  induction e as [s | name attributes d v children IH] using element_induction;
    intros x; cbn [find update]; [discriminate |].
  destruct (has_id id attributes).
  - intros H Hf. injection H as <-. now rewrite Hf.
  - intros H Hf.
    enough (E : change_first (update id f) children = Some children) by now rewrite E.
    induction IH as [|c rest Hc _ IHrest]; cbn [first_some change_first] in *;
      [discriminate |].
    destruct (find id c) as [y|] eqn:Hy.
    + injection H as ->. now rewrite (Hc x eq_refl Hf).
    + rewrite (update_none id f c Hy), (IHrest H). reflexivity.
Qed.

(** After a write to the element found, that element is found, as written. *)
Lemma find_update (id : string) (f : element -> element) :
  keeps_id f ->
  forall e x, find id e = Some x ->
    exists e', update id f e = Some e' /\ find id e' = Some (f x).
Proof.
  intros Hf.
  induction e as [s | name attributes d v children IH] using element_induction;
    intros x; cbn [find update]; [discriminate |].
  destruct (has_id id attributes) eqn:Hid.
  - intros H. injection H as <-. eexists. split; [reflexivity |].
    destruct (Hf name attributes d v children) as (d' & v' & c' & ->).
    cbn [find]. now rewrite Hid.
  - intros H.
    enough (E : exists children',
               change_first (update id f) children = Some children' /\
               first_some (find id) children' = Some (f x)).
    { destruct E as (children' & -> & E). eexists. split; [reflexivity |].
      cbn [find]. now rewrite Hid. }
    induction IH as [|c rest Hc _ IHrest]; cbn [first_some change_first] in *;
      [discriminate |].
    destruct (find id c) as [y|] eqn:Hy.
    + injection H as ->. destruct (Hc x eq_refl) as (c' & -> & Hc').
      eexists. split; [reflexivity |]. cbn [first_some]. now rewrite Hc'.
    + rewrite (update_none id f c Hy).
      destruct (IHrest H) as (rest' & -> & Hrest).
      eexists. split; [reflexivity |]. cbn [first_some]. now rewrite Hy.
Qed.

(** A write of [display] to the element of one id leaves the element of
    another id where it is, with its name, attributes, [display] and
    [value]. *)
Lemma find_other (a b : string) (d0 : string) :
  a <> b ->
  forall e e', update b (with_style_display d0) e = Some e' ->
    option_map shell (find a e') = option_map shell (find a e).
Proof.
  intros Hab.
  induction e as [s | name attributes d v children IH] using element_induction;
    intros e'; cbn [update]; [discriminate |].
  destruct (has_id b attributes) eqn:Hb.
  - intros H. injection H as <-. cbn [with_style_display find].
    destruct (has_id a attributes) eqn:Ha; [| reflexivity].
    rewrite (has_id_one a b attributes Hab Ha) in Hb. discriminate.
  - destruct (change_first _ children) as [children'|] eqn:Hc; [| discriminate].
    intros H. injection H as <-. cbn [find].
    destruct (has_id a attributes); [reflexivity |].
    revert children' Hc.
    induction IH as [|c rest Hc0 _ IHrest]; intros children';
      cbn [first_some change_first]; [discriminate |].
    destruct (update b (with_style_display d0) c) as [c'|] eqn:Hu.
    + intros H. injection H as <-. cbn [first_some].
      specialize (Hc0 c' eq_refl).
      destruct (find a c') as [y'|], (find a c) as [y|]; cbn in Hc0;
        try discriminate; [exact Hc0 | reflexivity].
    + destruct (change_first _ rest) as [rest'|]; [| discriminate].
      intros H. injection H as <-. cbn [first_some].
      destruct (find a c); [reflexivity |]. now apply IHrest.
Qed.

(** The same for the children of the list. *)
Lemma update_in_fixed (id : string) (f : element -> element) (l : list element) x :
  find_in id l = Some x -> f x = x -> update_in id f l = l.
Proof.
  unfold find_in, update_in. intros H Hf.
  enough (E : change_first (update id f) l = Some l) by now rewrite E.
  induction l as [|c rest IH]; cbn [first_some change_first] in *; [discriminate |].
  destruct (find id c) as [y|] eqn:Hy.
  - injection H as ->. now rewrite (update_fixed id f c x Hy Hf).
  - now rewrite (update_none id f c Hy), (IH H).
Qed.

Lemma find_in_update_in (id : string) (f : element -> element) (l : list element) x :
  keeps_id f -> find_in id l = Some x ->
  find_in id (update_in id f l) = Some (f x).
Proof.
  unfold find_in, update_in. intros Hf H.
  enough (E : exists l', change_first (update id f) l = Some l' /\
                         first_some (find id) l' = Some (f x)).
  { now destruct E as (l' & -> & E). }
  induction l as [|c rest IH]; cbn [first_some change_first] in *; [discriminate |].
  destruct (find id c) as [y|] eqn:Hy.
  - injection H as ->. destruct (find_update id f Hf c x Hy) as (c' & -> & Hc').
    eexists. split; [reflexivity |]. cbn [first_some]. now rewrite Hc'.
  - rewrite (update_none id f c Hy). destruct (IH H) as (rest' & -> & Hrest).
    eexists. split; [reflexivity |]. cbn [first_some]. now rewrite Hy.
Qed.

Lemma find_in_other (a b : string) (d0 : string) (l : list element) :
  a <> b ->
  option_map shell (find_in a (update_in b (with_style_display d0) l))
    = option_map shell (find_in a l).
Proof.
  unfold find_in, update_in. intros Hab.
  destruct (change_first _ l) as [l'|] eqn:Hc; [| reflexivity].
  revert l' Hc. induction l as [|c rest IH]; intros l';
    cbn [first_some change_first]; [discriminate |].
  destruct (update b (with_style_display d0) c) as [c'|] eqn:Hu.
  - intros H. injection H as <-. cbn [first_some].
    pose proof (find_other a b d0 Hab c c' Hu) as Hs.
    destruct (find a c') as [y'|], (find a c) as [y|]; cbn in Hs;
      try discriminate; [exact Hs | reflexivity].
  - destruct (change_first _ rest) as [rest'|]; [| discriminate].
    intros H. injection H as <-. cbn [first_some].
    destruct (find a c); [reflexivity |]. now apply IH.
Qed.

(** A [display] once written stays written while the element keeps its
    shell. *)
Lemma display_fixed_by_shell (d : string) (x y : element) :
  shell x = shell y ->
  with_style_display d x = x -> with_style_display d y = y.
Proof.
  destruct x as [s|n a dx v c], y as [s'|n' a' dy v' c']; cbn; try easy.
  intros E H. injection E as -> -> -> ->. injection H as H. now rewrite H.
Qed.

(** *** Lookups on the page *)

Lemma set_networks_children_same (p : page) :
  set_networks_children (box_children (networks p)) p = p.
Proof. now destruct p as [? [] ? ? ? ?]. Qed.

Lemma update_list_fixed (id : string) (f : element -> element) (p : page) x :
  in_list id p = Some x -> f x = x -> update_list id f p = p.
Proof.
  unfold in_list, update_list. intros H Hf.
  rewrite (update_in_fixed id f _ x H Hf). apply set_networks_children_same.
Qed.

Lemma in_list_update_list (id : string) (f : element -> element) (p : page) x :
  keeps_id f -> in_list id p = Some x ->
  in_list id (update_list id f p) = Some (f x).
Proof. intros Hf H. now apply find_in_update_in. Qed.

Lemma in_list_other (a b : string) (d : string) (p : page) :
  a <> b ->
  option_map shell (in_list a (update_list b (with_style_display d) p))
    = option_map shell (in_list a p).
Proof. intros Hab. now apply find_in_other. Qed.

Lemma append_nil_r (s : string) : s ++ EmptyString = s.
Proof. induction s as [|c s IH]; cbn; [reflexivity | now rewrite IH]. Qed.

Lemma append_assoc (a b c : string) : (a ++ b) ++ c = a ++ b ++ c.
Proof. induction a as [|x a IH]; cbn; [reflexivity | now rewrite IH]. Qed.



(** *** Writes to the banners *)

(** While the list holds no element with the id, the write goes to the
    banner. *)
Lemma success_style_display_own (d : string) (p : page) :
  in_list "success" p = None ->
  success_style_display d p = set_success_display d p.
Proof. unfold success_style_display. now intros ->. Qed.

Lemma error_style_display_own (d : string) (p : page) :
  in_list "error" p = None ->
  error_style_display d p = set_error_display d p.
Proof. unfold error_style_display. now intros ->. Qed.

Lemma error_textContent_own (t : string) (p : page) :
  in_list "error" p = None ->
  error_textContent t p = set_error_textContent t p.
Proof. unfold error_textContent. now intros ->. Qed.

(** While it holds one, the write goes to that element, and the banner is
    left alone. *)
Lemma error_style_display_listed (d : string) (p : page) x :
  in_list "error" p = Some x ->
  error_style_display d p = update_list "error" (with_style_display d) p /\
  in_list "error" (error_style_display d p) = Some (with_style_display d x).
Proof.
  unfold error_style_display. intros H. rewrite H. split; [reflexivity |].
  apply in_list_update_list; [apply with_style_display_keeps_id | exact H].
Qed.

Lemma error_textContent_listed (t : string) (p : page) x :
  in_list "error" p = Some x ->
  error_textContent t p = update_list "error" (with_textContent t) p /\
  in_list "error" (error_textContent t p) = Some (with_textContent t x).
Proof.
  unfold error_textContent. intros H. rewrite H. split; [reflexivity |].
  apply in_list_update_list; [apply with_textContent_keeps_id | exact H].
Qed.

Lemma success_style_display_listed (d : string) (p : page) x :
  in_list "success" p = Some x ->
  success_style_display d p = update_list "success" (with_style_display d) p /\
  in_list "success" (success_style_display d p) = Some (with_style_display d x).
Proof.
  unfold success_style_display. intros H. rewrite H. split; [reflexivity |].
  apply in_list_update_list; [apply with_style_display_keeps_id | exact H].
Qed.

(** A write to one banner's id leaves what is found under the other's. *)
Lemma success_write_keeps_error_lookup (d : string) (p : page) :
  option_map shell (in_list "error" (success_style_display d p))
    = option_map shell (in_list "error" p).
Proof.
  unfold success_style_display. destruct (in_list "success" p); [| reflexivity].
  now apply in_list_other.
Qed.

Lemma error_write_keeps_success_lookup (d : string) (p : page) :
  option_map shell (in_list "success" (error_style_display d p))
    = option_map shell (in_list "success" p).
Proof.
  unfold error_style_display. destruct (in_list "error" p); [| reflexivity].
  now apply in_list_other.
Qed.

(** What a write gives, it finds when it runs again. *)
Lemma error_style_display_fixed (d : string) (p : page) :
  error_is (with_style_display d) (fun b => div_display b = d) p ->
  error_style_display d p = p.
Proof.
  unfold error_is, error_style_display.
  destruct (in_list "error" p) as [x|] eqn:E; intros H.
  - now apply (update_list_fixed "error" _ p x).
  - destruct p as [? ? ? ? ? []]. cbn in H. now subst.
Qed.

Lemma error_textContent_fixed (t : string) (p : page) :
  error_is (with_textContent t) (fun b => div_textContent b = t) p ->
  error_textContent t p = p.
Proof.
  unfold error_is, error_textContent.
  destruct (in_list "error" p) as [x|] eqn:E; intros H.
  - now apply (update_list_fixed "error" _ p x).
  - destruct p as [? ? ? ? ? []]. cbn in H. now subst.
Qed.

Lemma success_style_display_fixed (d : string) (p : page) :
  success_is (with_style_display d) (fun b => div_display b = d) p ->
  success_style_display d p = p.
Proof.
  unfold success_is, success_style_display.
  destruct (in_list "success" p) as [x|] eqn:E; intros H.
  - now apply (update_list_fixed "success" _ p x).
  - destruct p as [? ? ? ? [] ?]. cbn in H. now subst.
Qed.

Lemma error_style_display_done (d : string) (p : page) :
  error_is (with_style_display d) (fun b => div_display b = d)
           (error_style_display d p).
Proof.
  unfold error_is. destruct (in_list "error" p) as [x|] eqn:E.
  - destruct (error_style_display_listed d p x E) as [_ ->]. now destruct x.
  - rewrite (error_style_display_own d p E).
    change (in_list "error" (set_error_display d p)) with (in_list "error" p).
    now rewrite E.
Qed.

Lemma success_style_display_done (d : string) (p : page) :
  success_is (with_style_display d) (fun b => div_display b = d)
             (success_style_display d p).
Proof.
  unfold success_is. destruct (in_list "success" p) as [x|] eqn:E.
  - destruct (success_style_display_listed d p x E) as [_ ->]. now destruct x.
  - rewrite (success_style_display_own d p E).
    change (in_list "success" (set_success_display d p)) with (in_list "success" p).
    now rewrite E.
Qed.

(** The text written stays through the write of [display] that follows. *)
Lemma error_textContent_done (t d : string) (p : page) :
  error_is (with_textContent t) (fun b => div_textContent b = t)
           (error_style_display d (error_textContent t p)).
Proof.
  unfold error_is. destruct (in_list "error" p) as [x|] eqn:E.
  - destruct (error_textContent_listed t p x E) as [_ E1].
    destruct (error_style_display_listed d _ _ E1) as [_ ->]. now destruct x.
  - rewrite (error_textContent_own t p E).
    assert (E1 : in_list "error" (set_error_textContent t p) = None) by exact E.
    rewrite (error_style_display_own d _ E1).
    change (in_list "error" (set_error_display d (set_error_textContent t p)))
      with (in_list "error" p).
    now rewrite E.
Qed.

(** The [display] written to the one banner stays through the write to the
    other. *)
Lemma success_style_display_stays (d d' : string) (p : page) :
  success_is (with_style_display d) (fun b => div_display b = d) p ->
  success_is (with_style_display d) (fun b => div_display b = d)
             (error_style_display d' p).
Proof.
  unfold success_is. intros H.
  pose proof (error_write_keeps_success_lookup d' p) as Hs.
  destruct (in_list "success" p) as [x|] eqn:E;
    destruct (in_list "success" (error_style_display d' p)) as [y|] eqn:E';
    cbn in Hs; try discriminate.
  - injection Hs as Hs. now apply (display_fixed_by_shell d x y).
  - unfold error_style_display. now destruct (in_list "error" p).
Qed.

(** *** What a callback leaves alone *)

Section Frame.

Context {A : Type} (f : page -> A).

Lemma keeps_ret {B} (b : B) : keeps f (ret b).
Proof. intros p. reflexivity. Qed.

Lemma keeps_eval {B} (o : option B) : keeps f (eval o).
Proof. intros p. reflexivity. Qed.

Lemma keeps_write (g : page -> page) :
  (forall p, f (g p) = f p) -> keeps f (write g).
Proof. intros Hg p. apply Hg. Qed.

Lemma keeps_bind {B C} (c : script B) (k : B -> script C) :
  keeps f c -> (forall b, keeps f (k b)) -> keeps f (bind c k).
Proof.
  intros Hc Hk p. unfold unchanged, bind. specialize (Hc p).
  destruct (c p) as [[b|] p1]; cbn in *.
  - rewrite <- Hc. apply Hk.
  - exact Hc.
Qed.

Lemma bind_returns {B C} (c : script B) (k : B -> script C) p (r : C) p' :
  bind c k p = (Some r, p') ->
  exists b p1, c p = (Some b, p1) /\ k b p1 = (Some r, p').
Proof.
  unfold bind. destruct (c p) as [[b|] p1]; [| discriminate].
  intros H. now exists b, p1.
Qed.

Lemma keeps_for_each {B} (callback : B -> script unit) (l : list B) :
  (forall b, keeps f (callback b)) -> keeps f (for_each callback l).
Proof.
  intros Hcb. induction l as [|x l IH]; cbn [for_each].
  - apply keeps_ret.
  - apply keeps_bind; [apply Hcb | intros _; exact IH].
Qed.

Lemma keeps_forEach (v : value) (callback : json -> script unit) :
  (forall b, keeps f (callback b)) -> keeps f (forEach v callback).
Proof.
  intros Hcb. destruct v as [|[]]; cbn [forEach]; try apply keeps_eval.
  now apply keeps_for_each.
Qed.

Lemma keeps_if {B} (b : bool) (c1 c2 : script B) :
  keeps f c1 -> keeps f c2 -> keeps f (if b then c1 else c2).
Proof. now destruct b. Qed.

End Frame.

Ltac frame :=
  repeat first
    [ apply keeps_bind; [| intros ?]
    | apply keeps_if
    | apply keeps_forEach; intros ?
    | apply keeps_eval
    | apply keeps_ret
    | apply keeps_write; intros ?; reflexivity ].

(** *** POST /save *)



(** The paths of the /save callbacks. *)
Ltac save_paths r :=
  unfold save_settled, settle, save_then, save_catch, bind, eval, write;
  destruct r as [| |?result];
  [ | |
    match goal with
    | |- context [get "success" ?j] =>
        destruct (get "success" j) as [?ok|];
        [ match goal with
          | |- context [truthy ?o] => destruct (truthy o)
          end;
          [ |
            match goal with
            | |- context [get "message" ?j'] =>
                destruct (get "message" j') as [?m|];
                [ match goal with
                  | |- context [concat ?a ?b] => destruct (concat a b)
                  end | ]
            end ] | ]
    end ].

Section Save.

Context {T : NumberToString}.










(** The same answer to /save twice leaves the page as the first did. *)
Theorem save_response_twice_changes_nothing :
  forall (r : response) (p : page),
    save_settled r (save_settled r p) = save_settled r p.
Proof.
  intros r p.
  assert (Hcatch : forall q, error_style_display "block" (error_style_display "block" q)
                             = error_style_display "block" q).
  { intros q. apply error_style_display_fixed, error_style_display_done. }
  save_paths r; cbn [fst snd]; try apply Hcatch.
  - rewrite (success_style_display_fixed "block").
    + apply error_style_display_fixed, error_style_display_done.
    + apply success_style_display_stays, success_style_display_done.
  - rewrite (error_textContent_fixed s).
    + apply error_style_display_fixed, error_style_display_done.
    + apply error_textContent_done.
Qed.



(** *** What the callbacks do to the banners of the page *)

(** The accepting branch is the only write to the success banner, and it
    sets [display] to [block]. *)
Lemma save_settled_success (r : response) (p : page) :
  success (save_settled r p) = success p \/
  success (save_settled r p)
    = {| div_textContent := div_textContent (success p); div_display := "block" |}.
Proof.
  assert (He : forall d q, success (error_style_display d q) = success q).
  { intros d q. unfold error_style_display. now destruct (in_list "error" q). }
  assert (Ht : forall t q, success (error_textContent t q) = success q).
  { intros t q. unfold error_textContent. now destruct (in_list "error" q). }
  save_paths r; cbn [fst snd]; rewrite ?He, ?Ht; auto.
  unfold success_style_display. destruct (in_list "success" p); cbn; auto.
Qed.


(** While an element of the list carries the id [error], the callbacks do
    not reach the error banner. *)
Lemma save_settled_error_hidden (r : response) (p : page) x :
  in_list "error" p = Some x -> error (save_settled r p) = error p.
Proof.
  intros E.
  assert (Hd : forall d q y, in_list "error" q = Some y ->
                 error (error_style_display d q) = error q).
  { intros d q y Hq. unfold error_style_display. now rewrite Hq. }
  assert (Hs : forall d q, error (success_style_display d q) = error q).
  { intros d q. unfold success_style_display. now destruct (in_list "success" q). }
  save_paths r; cbn [fst snd]; try apply (Hd _ p x E).
  - pose proof (success_write_keeps_error_lookup "block" p) as Hl.
    rewrite E in Hl.
    destruct (in_list "error" (success_style_display "block" p)) as [y|] eqn:E1;
      [| discriminate].
    rewrite (Hd _ _ y E1). apply Hs.
  - destruct (error_textContent_listed s p x E) as [-> E1].
    now rewrite (Hd _ _ _ E1).
Qed.

End Save.

(** *** Markup *)

Lemma plain_char_step (c : ascii) :
  plain_char c = true -> Html.step Data c = Some ([Character c], Data).
Proof.
  unfold plain_char, Html.step, data. intros H.
  apply negb_true_iff in H.
  destruct (Ascii.eqb c "000"), (Ascii.eqb c "013"), (Ascii.eqb c "&"),
    (Ascii.eqb c "<"); cbn in *; congruence.
Qed.

(** Plain text is tokenized character by character. *)
Lemma feed_plain (s : string) :
  plain s = true -> feed Data s = Some (characters s, Data).
Proof.
  unfold characters. induction s as [|c s IH]; cbn [plain feed]; intros H.
  - reflexivity.
  - apply andb_prop in H. destruct H as [Hc Hs].
    rewrite (plain_char_step c Hc), (IH Hs). reflexivity.
Qed.

Lemma feed_app (a b : string) :
  forall s,
    feed s (a ++ b) =
    match feed s a with
    | None => None
    | Some (out, s') =>
        match feed s' b with
        | None => None
        | Some (more, s'') => Some ((out ++ more)%list, s'')
        end
    end.
Proof.
  induction a as [|c a IH]; intros s; cbn [feed append].
  - destruct (feed s b) as [[more s'']|]; reflexivity.
  - destruct (Html.step s c) as [[out s']|]; [| reflexivity].
    rewrite IH. destruct (feed s' a) as [[o1 s1]|]; [| reflexivity].
    destruct (feed s1 b) as [[o2 s2]|]; [| reflexivity].
    now rewrite app_assoc.
Qed.

Lemma build_app (ks1 ks2 : list token) :
  forall b,
    build (ks1 ++ ks2) b =
    match build ks1 b with
    | None => None
    | Some b' => build ks2 b'
    end.
Proof.
  induction ks1 as [|k ks1 IH]; intros b; cbn [build app]; [reflexivity |].
  destruct (tree_step k b); [apply IH | reflexivity].
Qed.

Lemma add_text_character (c : ascii) (s : string) (children : list node) :
  add_text s (insert_character c children) = add_text (String c s) children.
Proof.
  unfold insert_character, snoc.
  destruct s as [|d s]; destruct children as [|[before|] older]; cbn;
    try reflexivity.
  rewrite append_assoc. reflexivity.
Qed.

(** Characters in a row become one text at the end of the current node. *)
Lemma build_characters (s : string) :
  forall b, build (characters s) b = Some (with_text s b).
Proof.
  unfold characters. induction s as [|c s IH]; intros b; cbn [build map list_ascii_of_string].
  - destruct b as [[|e outer] root]; [reflexivity |]. now destruct e.
  - cbn [tree_step]. rewrite IH.
    destruct b as [[|e outer] root]; cbn [with_text open_children open_name open_attributes];
      now rewrite add_text_character.
Qed.

Lemma plain_app (a b : string) :
  plain a = true -> plain b = true -> plain (a ++ b) = true.
Proof.
  induction a as [|c a IH]; cbn; [easy |].
  intros H Hb. apply andb_prop in H. destruct H as [-> Ha]. now apply IH.
Qed.

Section Markup.

Context {T : NumberToString}.

(** An integer of no more than 2^53 in magnitude prints as digits after an
    optional minus sign. *)
Lemma plain_number (n : Z) :
  (Z.abs n <= safe_integer)%Z -> plain (number_to_string n) = true.
Proof.
  assert (U : forall d, plain (NilEmpty.string_of_uint d) = true).
  { induction d; cbn [NilEmpty.string_of_uint plain]; try rewrite IHd; reflexivity. }
  assert (V : forall d, plain (NilZero.string_of_uint d) = true).
  { intros d. destruct d; try apply U. reflexivity. }
  intros Hn. apply Z.leb_le in Hn.
  unfold number_to_string, NilZero.string_of_int. rewrite Hn.
  destruct (Z.to_int n); cbn [plain]; now rewrite V.
Qed.

Lemma row_markup_eq (name : string) (rssi : Z) :
  row_markup name rssi =
  "<span>" ++ name ++
  ("</span><span class=" ++ dq ++ "signal" ++ dq ++ ">") ++
  (number_to_string rssi ++ " dBm") ++ "</span>".
Proof.
  unfold row_markup. rewrite (append_assoc (number_to_string rssi)). reflexivity.
Qed.

(** The tokens of a row's markup when both texts are plain. *)
Lemma feed_row (name info : string) :
  plain name = true -> plain info = true ->
  feed Data ("<span>" ++ name ++
             ("</span><span class=" ++ dq ++ "signal" ++ dq ++ ">") ++
             info ++ "</span>")
  = Some ((span_start [] :: characters name)
            ++ (span_end :: span_start [("class", "signal")] :: characters info)
            ++ [span_end], Data)%list.
Proof.
  intros Hname Hinfo.
  rewrite feed_app.
  change (feed Data "<span>") with (Some ([span_start []], Data)).
  cbv beta iota.
  rewrite feed_app, (feed_plain name Hname). cbv beta iota.
  rewrite feed_app.
  replace (feed Data ("</span><span class=" ++ dq ++ "signal" ++ dq ++ ">"))
    with (Some ([span_end; span_start [("class", "signal")]], Data))
    by (vm_compute; reflexivity).
  cbv beta iota.
  rewrite feed_app, (feed_plain info Hinfo). cbv beta iota.
  change (feed Data "</span>") with (Some ([span_end], Data)).
  cbv beta iota. reflexivity.
Qed.

(** The nodes of a row when its [ssid] is plain text: two [<span>]s, the
    first with the [ssid] as its text, the second with the [rssi] and its
    unit. *)
Lemma plain_row_nodes (name : string) (rssi : Z) :
  plain name = true ->
  (Z.abs rssi <= safe_integer)%Z ->
  parse_fragment (row_markup name rssi) = Some (row_nodes name rssi).
Proof.
  intros Hname Hrssi.
  assert (Hinfo : plain (number_to_string rssi ++ " dBm") = true)
    by (apply plain_app; [now apply plain_number | reflexivity]).
  unfold parse_fragment, tokens.
  rewrite row_markup_eq, (feed_row _ _ Hname Hinfo).
  cbn [at_end]. rewrite app_nil_r.
  rewrite build_app. cbn [build tree_step span_start tag_name is_end tag_attributes].
  cbn [String.eqb Ascii.eqb Bool.eqb orb negb fst snd].
  rewrite build_characters. rewrite build_app.
  cbn [build tree_step span_start span_end tag_name is_end tag_attributes with_text
       open_name open_attributes open_children].
  cbn [String.eqb Ascii.eqb Bool.eqb orb negb fst snd pop insert_node closed].
  rewrite build_characters.
  cbn [build tree_step span_start span_end tag_name is_end tag_attributes with_text
       open_name open_attributes open_children].
  cbn [String.eqb Ascii.eqb Bool.eqb orb negb fst snd pop insert_node closed].
  unfold finish, row_nodes. cbn [fst snd List.length pops].
  destruct name as [|c name].
  - destruct (number_to_string rssi ++ " dBm") eqn:E.
    + destruct (number_to_string rssi); discriminate.
    + reflexivity.
  - destruct (number_to_string rssi ++ " dBm") eqn:E.
    + destruct (number_to_string rssi); discriminate.
    + reflexivity.
Qed.

End Markup.
(** *** GET /scan *)

Section Scan.

Context {B : Browser} {T : NumberToString} {N : StringToNumber}.

(** The scan callback writes to the [#networks] list and to the button. *)
Lemma scan_then_keeps_form (data : json) :
  keeps ssid (scan_then data) /\ keeps password (scan_then data) /\
  keeps success (scan_then data) /\ keeps error (scan_then data).
Proof. unfold scan_then, add_network. repeat split; frame. Qed.

(** The callback, statement by statement. *)
Lemma scan_then_eq (data : json) (p : page) :
  scan_then data p =
  let p1 := set_networks_display "block" (set_networks_innerHTML "" p) in
  match get "networks" (Json data) with
  | None => (None, p1)
  | Some found =>
      match has_networks found with
      | None => (None, p1)
      | Some some =>
          match (if some then forEach found add_network
                 else write (set_networks_innerHTML not_found_html)) p1 with
          | (Some _, p2) => (Some tt, set_scan_btn idle_label false p2)
          | (None, p2) => (None, p2)
          end
      end
  end.
Proof.
  unfold scan_then, bind, write, eval. cbv zeta.
  destruct (get "networks" (Json data)) as [found|]; [| reflexivity].
  destruct (has_networks found) as [some|]; reflexivity.
Qed.

(** When it returns, its last statement has reset the button. *)
Lemma scan_then_returns_idle (data : json) (p p' : page) :
  scan_then data p = (Some tt, p') -> scan_btn p' = idle_button.
Proof.
  unfold scan_then. intros H.
  repeat (apply bind_returns in H; destruct H as (? & ? & _ & H)).
  injection H as <-. reflexivity.
Qed.



(** C7.  However the /scan request ends, the button is afterwards enabled
    and carries its idle label, and neither banner nor field has changed:
    nothing tells the user of a failure.  When the request failed or the
    body was not JSON the [#networks] list is untouched as well; when the
    body parsed and the callback threw on it, the [catch] callback still
    resets the button. *)
Theorem scan_failure_resets_silently :
  forall (r : response) (p : page),
    let p' := scan_settled r p in
    scan_btn p' = idle_button /\
    error p' = error p /\ success p' = success p /\
    ssid p' = ssid p /\ password p' = password p /\
    (r = NetworkError \/ r = NotJson -> networks p' = networks p) /\
    (forall data, r = Body data -> fst (scan_then data p) = None ->
                  p' = scan_catch (snd (scan_then data p))).
Proof.
  intros r p. cbv zeta. unfold scan_settled, settle.
  destruct r as [| |data].
  1,2: repeat split; intros; try reflexivity; discriminate.
  destruct (scan_then_keeps_form data) as (Hs & Hp & Hok & Herr).
  specialize (Hs p). specialize (Hp p). specialize (Hok p). specialize (Herr p).
  unfold unchanged in *.
  destruct (scan_then data p) as [[[]|] p1] eqn:Hrun; cbn [fst snd] in *.
  - repeat split; try assumption.
    + eapply scan_then_returns_idle; eassumption.
    + intros [H|H]; discriminate.
    + intros d Hd H. injection Hd as <-. rewrite Hrun in H. discriminate.
  - repeat split; try assumption.
    + intros [H|H]; discriminate.
    + intros d Hd _. injection Hd as <-. now rewrite Hrun.
Qed.

(** The markup of a row for a network of the contract. *)
Lemma item_html_well_formed (n : json) (name : string) (rssi : Z) :
  network_of n name rssi -> item_html n = Some (row_markup name rssi).
Proof.
  intros [Hname Hrssi]. unfold item_html, row_markup.
  rewrite Hname. cbn [concat value_to_string to_string option_map].
  rewrite Hrssi. cbn [concat value_to_string to_string option_map].
  f_equal. now rewrite !append_assoc.
Qed.

(** [forEach] over networks of the contract appends one row for each, in
    order, and does not throw.  Each row has the markup of its network,
    written out, and a listener for it. *)
Lemma for_each_appends_rows (nets : list json) :
  Forall well_formed nets ->
  forall p, exists rows,
    for_each add_network nets p
      = (Some tt,
         set_networks {| box_display := box_display (networks p);
                         box_innerHTML := box_innerHTML (networks p);
                         box_appended := box_appended (networks p) ++ rows;
                         box_children := box_children (networks p)
                                           ++ map row_element rows |} p)
    /\ Forall2 row_of nets rows /\ Forall2 row_for nets rows.
Proof.
  induction 1 as [|n nets (name & rssi & Hn) _ IH]; intros p.
  - exists []. split; [| split; constructor].
    cbn. rewrite !app_nil_r. now destruct p as [? [] ? ? ? ?].
  - pose proof (item_html_well_formed _ _ _ Hn) as Hhtml.
    set (row := {| className := "network-item";
                   innerHTML := row_markup name rssi;
                   onclick := Some (SelectNetwork n) |}).
    destruct (IH (appendChild row p)) as (rows & Hrun & Hrows & Hfor).
    exists (row :: rows). split; [| split].
    + cbn [for_each]. unfold bind at 1. unfold add_network at 1.
      unfold bind, eval, write. rewrite Hhtml. fold row. rewrite Hrun.
      cbn. now rewrite <- !app_assoc.
    + constructor; [| exact Hrows]. now repeat split.
    + constructor; [| exact Hfor]. exists name, rssi.
      split; [exact Hn | now repeat split].
Qed.

(** The callback on a body with one network or more of the contract. *)
Lemma scan_settled_rows (data : json) (nets : list json) (p : page) :
  get "networks" (Json data) = Some (Json (JArr nets)) ->
  nets <> [] ->
  Forall well_formed nets ->
  exists rows,
    scan_settled (Body data) p
      = set_scan_btn idle_label false
          (set_networks {| box_display := "block"; box_innerHTML := EmptyString;
                           box_appended := rows;
                           box_children := parse_dom EmptyString
                                             ++ map row_element rows |} p)
    /\ Forall2 row_of nets rows /\ Forall2 row_for nets rows.
Proof.
  intros Hget Hne Hwf.
  unfold scan_settled, settle. rewrite scan_then_eq. cbv zeta.
  rewrite Hget. cbn [has_networks truthy get_length gt_zero].
  assert (Hlen : (0 <? Z.of_nat (List.length nets))%Z = true).
  { destruct nets; [contradiction | now cbn]. }
  rewrite Hlen. cbn [forEach].
  destruct (for_each_appends_rows nets Hwf
              (set_networks_display "block" (set_networks_innerHTML "" p)))
    as (rows & Hrun & Hrows & Hfor).
  rewrite Hrun. exists rows. now repeat split.
Qed.


(** C9.  When the body has no [networks] or an empty array, the callback
    assigns the markup of one row to the list and appends nothing; the
    browser reads that markup as a single [network-item] holding the
    "not found" text.  The list is shown and the button reset. *)
Theorem scan_without_networks_shows_placeholder :
  forall (data : json) (p : page),
    get "networks" (Json data) = Some Undefined \/
    get "networks" (Json data) = Some (Json (JArr [])) ->
    let p' := scan_settled (Body data) p in
    box_innerHTML (networks p') = not_found_html /\
    box_appended (networks p') = [] /\
    parse_fragment (box_innerHTML (networks p'))
      = Some [Element "div" [("class", "network-item")] [Text "見つかりません"]] /\
    shown (box_display (networks p')) = true /\
    scan_btn p' = idle_button.
Proof.
  intros data p Hget. cbv zeta.
  unfold scan_settled, settle. rewrite scan_then_eq. cbv zeta.
  destruct Hget as [Hg | Hg]; rewrite Hg;
    cbn [has_networks truthy get_length gt_zero List.length Z.of_nat Z.ltb
         Z.compare write set_scan_btn set_networks_innerHTML set_networks
         set_networks_display networks scan_btn box_innerHTML box_appended
         box_display];
    repeat split; vm_compute; reflexivity.
Qed.

(** C3.  The body [{"networks": [{"ssid": "<span>", "rssi": -50}]}] on the
    page as loaded.  The callback appends one row, and its markup holds the
    [ssid] as it came; the browser reads that [ssid] as a start tag, so the
    row consists of elements and the text "-50 dBm": the name of the
    network is not on screen. *)
Theorem scan_row_reads_ssid_as_markup :
  let p' := scan_settled (scan_body [network "<span>" (-50)]) initial_page in
  exists row,
    box_appended (networks p') = [row] /\
    innerHTML row = row_markup "<span>" (-50) /\
    parse_fragment (innerHTML row)
      = Some [Element "span" []
                [Element "span" [] [];
                 Element "span" [("class", "signal")] [Text "-50 dBm"]]] /\
    option_map text_of (parse_fragment (innerHTML row)) = Some "-50 dBm".
Proof.
  cbv zeta.
  exists {| className := "network-item";
            innerHTML := row_markup "<span>" (-50);
            onclick := Some (SelectNetwork (network "<span>" (-50))) |}.
  repeat split; vm_compute; reflexivity.
Qed.

(** A row made for a network whose [ssid] is plain text and whose [rssi]
    is an integer of no more than 2^53 in magnitude shows that [ssid] in
    its first [<span>] and the [rssi], in decimal digits, with its unit in
    the second. *)
Lemma plain_ssid_row_shows_ssid_and_rssi :
  forall (n : json) (name : string) (rssi : Z) (row : item),
    network_of n name rssi ->
    plain name = true ->
    (Z.abs rssi <= safe_integer)%Z ->
    row_of n row ->
    innerHTML row = row_markup name rssi /\
    parse_fragment (innerHTML row) = Some (row_nodes name rssi) /\
    text_of (row_nodes name rssi)
      = name ++ NilZero.string_of_int (Z.to_int rssi) ++ " dBm".
Proof.
  intros n name rssi row Hn Hplain Hrssi (_ & Hhtml & _).
  rewrite (item_html_well_formed _ _ _ Hn) in Hhtml. injection Hhtml as <-.
  split; [reflexivity |]. split; [now apply plain_row_nodes |].
  unfold row_nodes, text_of. cbn [map text_content String.concat].
  rewrite append_nil_r.
  assert (Hdigits : number_to_string rssi = NilZero.string_of_int (Z.to_int rssi)).
  { unfold number_to_string. apply Z.leb_le in Hrssi. now rewrite Hrssi. }
  rewrite Hdigits. f_equal.
  destruct name; cbn; [reflexivity | now rewrite append_nil_r].
Qed.

End Scan.
(** *** An [ssid] that brings an id into the list *)

Section Shadow.

Context {B : Browser} {T : NumberToString} {N : StringToNumber}.

(** The page after a scan that found one network of the contract, when
    [Html] reads the row's markup. *)
Lemma scan_settled_one (n : json) (name : string) (rssi : Z)
    (nodes : list node) (p : page) :
  network_of n name rssi ->
  parse_fragment (row_markup name rssi) = Some nodes ->
  scan_settled (scan_body [n]) p
    = set_scan_btn idle_label false
        (set_networks
           {| box_display := "block"; box_innerHTML := EmptyString;
              box_appended := [{| className := "network-item";
                                  innerHTML := row_markup name rssi;
                                  onclick := Some (SelectNetwork n) |}];
              box_children := [Elem "div" [("class", "network-item")] None None
                                 (map of_node nodes)] |} p).
Proof.
  intros Hn Hparse.
  assert (Hwf : Forall well_formed [n]).
  { constructor; [| constructor]. now exists name, rssi. }
  destruct (scan_settled_rows (JObj [("networks", JArr [n])]) [n] p eq_refl
              ltac:(discriminate) Hwf) as (rows & Hrun & _ & Hfor).
  unfold scan_body. rewrite Hrun. clear Hrun.
  inversion Hfor as [|? row ? rest Hrow Hrest]; subst.
  inversion Hrest; subst.
  destruct Hrow as (name' & rssi' & [Hname' Hrssi'] & Hc & Hh & Ho).
  destruct Hn as [Hname Hrssi].
  rewrite Hname in Hname'. injection Hname' as <-.
  rewrite Hrssi in Hrssi'. injection Hrssi' as <-.
  destruct row as [c h o]. cbn in Hc, Hh, Ho. subst c h o.
  rewrite (parse_dom_modelled EmptyString [] eq_refl).
  cbn [map app]. unfold row_element. cbn [className innerHTML].
  now rewrite (parse_dom_modelled _ _ Hparse).
Qed.

Lemma scan_brings (tag id : string) (p : page) :
  parse_fragment (row_markup tag (-50))
    = Some [Element "span" []
              [Element "div" [("id", id)]
                 [Element "span" [("class", "signal")] [Text "-50 dBm"]]]] ->
  scan_settled (scan_body [network tag (-50)]) p
    = set_scan_btn idle_label false
        (set_networks
           {| box_display := "block"; box_innerHTML := EmptyString;
              box_appended := [{| className := "network-item";
                                  innerHTML := row_markup tag (-50);
                                  onclick := Some (SelectNetwork (network tag (-50))) |}];
              box_children := [Elem "div" [("class", "network-item")] None None
                                 [Elem "span" [] None None
                                    [brought id None signal]]] |} p).
Proof.
  intros Hparse.
  rewrite (scan_settled_one (network tag (-50)) tag (-50) _ p
             (conj eq_refl eq_refl) Hparse).
  reflexivity.
Qed.

(** C1.  The /scan body [{"networks": [{"ssid": "<div id=success>", "rssi": -50}]}]
    on the page as loaded, then the /save body [{"success": true}].  The
    row's markup holds the [ssid] as it came, and the browser makes a
    [<div>] with the id [success] of it, inside the list and so ahead of
    the success banner.  [getElementById('success')] finds that [<div>]:
    the handler sets its [display], the success banner keeps the
    stylesheet's [none] and is not on screen. *)
Theorem save_accepted_shows_element_of_row :
  let p := scan_settled (scan_body [network "<div id=success>" (-50)]) initial_page in
  let p' := save_settled saved p in
  in_list "success" p = Some (brought "success" None signal) /\
  in_list "success" p' = Some (brought "success" (Some "block") signal) /\
  success p' = success initial_page /\
  shown (div_display (success p')) = false /\
  div_display (error p') = "none".
Proof.
  cbv zeta.
  rewrite (scan_brings "<div id=success>" "success" initial_page)
    by (vm_compute; reflexivity).
  repeat split; vm_compute; reflexivity.
Qed.

(** C2.  The /scan body [{"networks": [{"ssid": "<div id=error>", "rssi": -50}]}]
    on the page as loaded, then the /save body
    [{"success": false, "message": "bad password"}].
    [getElementById('error')] finds the [<div>] made from the [ssid]: the
    message is written into the row and the row's element is shown; the
    error banner keeps its text and the stylesheet's [none]. *)
Theorem save_rejected_writes_message_into_row :
  let p := scan_settled (scan_body [network "<div id=error>" (-50)]) initial_page in
  let p' := save_settled bad_password p in
  in_list "error" p = Some (brought "error" None signal) /\
  in_list "error" p'
    = Some (brought "error" (Some "block")
              [TextNode (error_prefix ++ "bad password")]) /\
  error p' = error initial_page /\
  shown (div_display (error p')) = false /\
  div_textContent (error p') = error_prefix ++ generic_label.
Proof.
  cbv zeta.
  rewrite (scan_brings "<div id=error>" "error" initial_page)
    by (vm_compute; reflexivity).
  repeat split; vm_compute; reflexivity.
Qed.

(** On every path that does not accept, the last write is [display]
    [block] to the element found under the id [error]. *)
Lemma save_failure_shows_what_it_finds (r : response) (p : page) :
  accepted r = false ->
  error_is (with_style_display "block") (fun b => div_display b = "block")
           (save_settled r p).
Proof.
  intros Hr. unfold save_settled, settle, save_then, save_catch, bind, eval, write.
  destruct r as [| |result]; try apply error_style_display_done.
  unfold accepted in Hr.
  destruct (get "success" (Json result)) as [ok|];
    [| apply error_style_display_done].
  rewrite Hr.
  destruct (get "message" (Json result)) as [m|];
    [| apply error_style_display_done].
  destruct (concat error_prefix (or_else m (Json (JStr generic_label))));
    apply error_style_display_done.
Qed.

(** C10.  The page after the /scan body
    [{"networks": [{"ssid": "<div id=error>", "rssi": -50}]}], then any
    /save failure: a rejection, a failed request, a body that is not JSON.
    The handler's writes go to the [<div>] in the row: the list is not what
    it was, and the error banner is, still off screen. *)
Theorem save_failure_writes_into_row :
  forall (r : response),
    accepted r = false ->
    let p := scan_settled (scan_body [network "<div id=error>" (-50)]) initial_page in
    let p' := save_settled r p in
    networks p' <> networks p /\
    error p' = error p /\
    shown (div_display (error p')) = false /\
    success p' = success p.
Proof.
  intros r Hr. cbv zeta.
  pose proof (save_failure_shows_what_it_finds r
                (scan_settled (scan_body [network "<div id=error>" (-50)])
                   initial_page) Hr) as Hshown.
  revert Hshown.
  rewrite (scan_brings "<div id=error>" "error" initial_page)
    by (vm_compute; reflexivity).
  set (p := set_scan_btn _ _ _).
  assert (E : in_list "error" p = Some (brought "error" None signal))
    by (vm_compute; reflexivity).
  intros Hshown. split; [| split; [| split]].
  - intros Hsame. unfold error_is, in_list in Hshown. rewrite Hsame in Hshown.
    fold (in_list "error" p) in Hshown. rewrite E in Hshown. discriminate.
  - apply (save_settled_error_hidden r p _ E).
  - rewrite (save_settled_error_hidden r p _ E). reflexivity.
  - destruct (save_settled_success r p) as [H|H]; [exact H |].
    exfalso. revert H. unfold accepted in Hr.
    assert (He : forall d q, success (error_style_display d q) = success q).
    { intros d q. unfold error_style_display. now destruct (in_list "error" q). }
    assert (Ht : forall t q, success (error_textContent t q) = success q).
    { intros t q. unfold error_textContent. now destruct (in_list "error" q). }
    unfold save_settled, settle, save_then, save_catch, bind, eval, write.
    destruct r as [| |result]; rewrite ?He; try discriminate.
    destruct (get "success" (Json result)) as [ok|]; rewrite ?He; try discriminate.
    rewrite Hr.
    destruct (get "message" (Json result)) as [m|]; rewrite ?He; try discriminate.
    destruct (concat error_prefix (or_else m (Json (JStr generic_label))));
      cbn [fst snd]; rewrite ?He, ?Ht; discriminate.
Qed.

End Shadow.
(** *** Events *)

Section Events.

Context {B : Browser} {T : NumberToString} {N : StringToNumber}.











(** C6.  A transport failure after a rejected submission: the user names a
    network and submits, the device answers
    [{"success": false, "message": "bad password"}], the user submits again
    and this time the request fails.  The [catch] callback only sets
    [display]; the banner still reads "bad password", not the generic
    label. *)
Theorem save_transport_failure_keeps_stale_message :
  forall (N : StringToNumber),
    option_map (fun u => error (doc u))
      (run [TypeSsid "home"; Submit; SaveSettles bad_password;
            Submit; SaveSettles NetworkError] initial_ui)
    = Some {| div_textContent := error_prefix ++ "bad password";
              div_display := "block" |}.
Proof.
  intros N'.
  assert (V : forall q, box_children (networks q) = [] -> valid (ssid q) = true ->
                valid (password q) = true -> form_valid q = true).
  { intros q Hq Hs Hp. unfold form_valid.
    now rewrite Hs, Hp, Hq, (controls_valid_inert [] eq_refl). }
  cbn -[form_valid]. rewrite V by reflexivity.
  cbn -[form_valid]. rewrite V by reflexivity. reflexivity.
Qed.

(** C4.  The /scan body [{"networks": [{"ssid": "<input id=ssid>", "rssi": -50}]}],
    then the user types "home" into the SSID field and submits.  The row's
    markup holds the [ssid] as it came, and the browser makes a text field
    with the id [ssid] of it, inside the list and so ahead of the SSID
    field.  The SSID field is not empty and the form is valid; the
    handler's [getElementById('ssid')] finds the field in the row, which is
    empty: the body posted has the empty string for its [ssid], while the
    SSID field reads "home". *)
Theorem save_request_reads_element_of_row :
  let events := [ClickScan;
                 ScanSettles (scan_body [network "<input id=ssid>" (-50)]);
                 TypeSsid "home"; Submit] in
  option_map (fun u => in_list "ssid" (doc u)) (run events initial_ui)
    = Some (Some (Elem "input" [("id", "ssid")] None None [])) /\
  option_map (fun u => input_value (ssid (doc u))) (run events initial_ui)
    = Some "home" /\
  option_map posted (run events initial_ui)
    = Some [body_of EmptyString EmptyString].
Proof.
  cbv zeta. cbn [run].
  change (step ClickScan initial_ui)
    with (Some {| doc := scanNetworks initial_page; scans := 1; saves := 0;
                  posted := [] |}).
  cbn [step scans doc saves posted].
  rewrite (scan_settled_one (network "<input id=ssid>" (-50)) "<input id=ssid>" (-50)
             [Element "span" [] [Element "input" [("id", "ssid")] []];
              Element "span" [("class", "signal")] [Text "-50 dBm"]]
             (scanNetworks initial_page) (conj eq_refl eq_refl))
    by (vm_compute; reflexivity).
  cbn [has_line_break is_line_break Ascii.eqb Bool.eqb orb].
  cbn [step doc set_doc].
  set (p := set_ssid_value "home" _).
  assert (V : form_valid p = true).
  { unfold form_valid. rewrite controls_valid_inert by (vm_compute; reflexivity).
    reflexivity. }
  rewrite V. cbn [option_map doc posted app].
  repeat split; vm_compute; reflexivity.
Qed.

End Events.
(** *** The list after a response *)

Section List.

Context {B : Browser} {T : NumberToString} {N : StringToNumber}.


(** What [add_network] does to the page: nothing when the markup cannot be
    built, one more row otherwise. *)
Lemma add_network_eq (entry : json) (p : page) :
  add_network entry p =
  match item_html entry with
  | Some html =>
      (Some tt, appendChild {| className := "network-item"; innerHTML := html;
                               onclick := Some (SelectNetwork entry) |} p)
  | None => (None, p)
  end.
Proof.
  unfold add_network, bind, eval, write. now destruct (item_html entry).
Qed.

(** [forEach] reads nothing of the page: on two pages with the same list it
    ends the same way and leaves the same list. *)
Lemma for_each_local (l : list json) :
  forall p q,
    networks p = networks q ->
    fst (for_each add_network l p) = fst (for_each add_network l q) /\
    networks (snd (for_each add_network l p))
      = networks (snd (for_each add_network l q)).
Proof.
  induction l as [|entry l IH]; intros p q Hpq; cbn [for_each].
  - now split.
  - unfold bind. rewrite !add_network_eq.
    destruct (item_html entry) as [html|]; [| now split].
    apply IH. unfold appendChild, set_networks. cbn. now rewrite Hpq.
Qed.

(** [forEach] keeps the list's markup and [display].  It adds a row for
    each entry in turn and stops at the first whose markup cannot be
    built. *)
Lemma for_each_rows (l : list json) :
  forall p,
    let p' := snd (for_each add_network l p) in
    box_innerHTML (networks p') = box_innerHTML (networks p) /\
    box_display (networks p') = box_display (networks p) /\
    exists rows,
      box_appended (networks p') = (box_appended (networks p) ++ rows)%list /\
      match fst (for_each add_network l p) with
      | Some _ => Forall2 row_of l rows
      | None =>
          exists made bad rest,
            l = (made ++ bad :: rest)%list /\ item_html bad = None /\
            Forall2 row_of made rows
      end.
Proof.
  induction l as [|entry l IH]; intros p; cbn [for_each].
  - cbn. repeat split. exists []. rewrite app_nil_r. split; [reflexivity | constructor].
  - cbv zeta. unfold bind. rewrite add_network_eq.
    destruct (item_html entry) as [html|] eqn:Hhtml.
    + set (row := {| className := "network-item"; innerHTML := html;
                     onclick := Some (SelectNetwork entry) |}).
      destruct (IH (appendChild row p)) as (H1 & H2 & rows & H3 & H4).
      split; [exact H1 |]. split; [exact H2 |].
      exists (row :: rows). split.
      * rewrite H3. cbn. now rewrite <- app_assoc.
      * assert (Hrow : row_of entry row) by now repeat split.
        destruct (fst (for_each add_network l (appendChild row p))).
        -- now constructor.
        -- destruct H4 as (made & bad & rest & -> & Hbad & Hmade).
           exists (entry :: made), bad, rest.
           split; [reflexivity |]. split; [exact Hbad | now constructor].
    + cbn. repeat split. exists []. rewrite app_nil_r. split; [reflexivity |].
      exists [], entry, l.
      split; [reflexivity |]. split; [exact Hhtml | constructor].
Qed.

(** The callback empties the list before it reads the body. *)
Lemma scan_list_body_local (data : json) (p q : page) :
  networks (scan_settled (Body data) p) = networks (scan_settled (Body data) q) /\
  box_display (networks (scan_settled (Body data) p)) = "block".
Proof.
  unfold scan_settled, settle. rewrite !scan_then_eq. cbv zeta.
  destruct (get "networks" (Json data)) as [found|]; [| now split].
  destruct (has_networks found) as [[|]|]; [| now split | now split].
  destruct found as [|[| | | |l| |]]; cbn [forEach eval]; try now split.
  set (p1 := set_networks_display "block" (set_networks_innerHTML "" p)).
  set (q1 := set_networks_display "block" (set_networks_innerHTML "" q)).
  destruct (for_each_local l p1 q1 eq_refl) as [Hfst Hnet].
  destruct (for_each_rows l p1) as (_ & Hdisp & _).
  destruct (for_each add_network l p1) as [[[]|] p2];
    destruct (for_each add_network l q1) as [[[]|] q2];
    cbn [fst snd] in *; try discriminate; split;
    solve [exact Hnet | exact Hdisp].
Qed.

(** The list after a body that parsed is the list of that body: nothing of
    what it held before is left, whether the callback returns or throws,
    and it is on screen.  A second scan replaces the rows of the first. *)
Theorem scan_list_is_of_the_last_body :
  forall (data : json) (r : response) (p : page),
    networks (scan_settled (Body data) (scan_settled r p))
      = networks (scan_settled (Body data) p) /\
    networks (scan_settled (Body data) p)
      = networks (scan_settled (Body data) initial_page) /\
    box_display (networks (scan_settled (Body data) p)) = "block".
Proof.
  intros data r p. split; [| split].
  - exact (proj1 (scan_list_body_local data (scan_settled r p) p)).
  - exact (proj1 (scan_list_body_local data p initial_page)).
  - exact (proj2 (scan_list_body_local data p p)).
Qed.



(** The rows of plain networks bring no id into the list and no form
    control: after a scan that found networks of the contract whose
    [ssid]s are plain text, every lookup by id finds the page's own
    element, and the list holds nothing that the form's validation looks
    at. *)
Theorem scan_of_plain_names_brings_no_id :
  forall (data : json) (nets : list json) (p : page) (id : string),
    get "networks" (Json data) = Some (Json (JArr nets)) ->
    nets <> [] ->
    Forall plain_network nets ->
    let p' := scan_settled (Body data) p in
    in_list id p' = None /\
    controls_valid (box_children (networks p')) = true.
Proof.
  intros data nets p id Hget Hne Hplain. cbv zeta.
  assert (Hwf : Forall well_formed nets).
  { eapply Forall_impl; [| exact Hplain].
    intros n (name & rssi & Hn & _). now exists name, rssi. }
  destruct (scan_settled_rows data nets p Hget Hne Hwf) as (rows & -> & _ & Hfor).
  unfold in_list. cbn [networks set_scan_btn set_networks box_children].
  rewrite (parse_dom_modelled EmptyString [] eq_refl). cbn [map app].
  assert (H : find_in id (map row_element rows) = None /\
              forallb inert (map row_element rows) = true).
  { clear Hget Hne Hwf. revert rows Hfor.
    induction Hplain as [|n nets (name & rssi & Hn & Hname & Hrssi) _ IH];
      intros rows Hfor; inversion Hfor as [|? row ? rest Hrow Hrest]; subst;
      [now split |].
    destruct (IH rest Hrest) as [IH1 IH2].
    destruct Hrow as (name' & rssi' & [Hname' Hrssi'] & Hc & Hh & _).
    destruct Hn as [Hn1 Hn2].
    rewrite Hn1 in Hname'. injection Hname' as <-.
    rewrite Hn2 in Hrssi'. injection Hrssi' as <-.
    assert (E : row_element row
                = Elem "div" [("class", "network-item")] None None
                    (map of_node (row_nodes name rssi))).
    { unfold row_element. rewrite Hc, Hh.
      now rewrite (parse_dom_modelled _ _ (plain_row_nodes name rssi Hname Hrssi)). }
    unfold find_in in *. cbn [map first_some forallb]. rewrite E, IH2.
    split.
    - replace (find id (Elem "div" [("class", "network-item")] None None
                          (map of_node (row_nodes name rssi)))) with (@None element).
      + exact IH1.
      + unfold row_nodes. destruct name; reflexivity.
    - unfold row_nodes. destruct name; reflexivity. }
  destruct H as [H1 H2]. split; [exact H1 |]. now apply controls_valid_inert.
Qed.

End List.

(** *** A row and its listener *)

Section Row.

Context {B : Browser} {T : NumberToString}.


End Row.

(** *** Responses in sequence *)

Section Sequence.

Context {B : Browser} {T : NumberToString} {N : StringToNumber}.


End Sequence.

(** *** What holds in every state *)

Section Reachable.

Context {B : Browser} {T : NumberToString} {N : StringToNumber}.










End Reachable.
(* ================================================================== *)
(** ** The properties at work *)

#[local] Existing Instance simple_browser.
#[local] Existing Instance small_integers.
#[local] Existing Instance no_numeric_strings.




(** C9 with an empty array. *)
Lemma scan_without_networks_shows_placeholder_example :
  let p' := scan_settled (scan_body []) initial_page in
  box_innerHTML (networks p') = not_found_html /\
  box_appended (networks p') = [] /\
  parse_fragment (box_innerHTML (networks p'))
    = Some [Element "div" [("class", "network-item")] [Text "見つかりません"]] /\
  shown (box_display (networks p')) = true /\
  scan_btn p' = idle_button.
Proof.
  apply (scan_without_networks_shows_placeholder
           (JObj [("networks", JArr [])]) initial_page).
  right. reflexivity.
Defined.

(** C10: a rejection, on the page after the scan that brought the id. *)
Lemma save_failure_writes_into_row_example :
  let p := scan_settled (scan_body [network "<div id=error>" (-50)]) initial_page in
  let p' := save_settled bad_password p in
  networks p' <> networks p /\
  error p' = error p /\
  shown (div_display (error p')) = false /\
  success p' = success p.
Proof.
  apply (save_failure_writes_into_row bad_password). reflexivity.
Defined.


(** The row of the network "home". *)
Lemma plain_ssid_row_shows_ssid_and_rssi_example :
  let row := {| className := "network-item";
                innerHTML := row_markup "home" (-50);
                onclick := Some (SelectNetwork home) |} in
  innerHTML row = row_markup "home" (-50) /\
  parse_fragment (innerHTML row) = Some (row_nodes "home" (-50)) /\
  text_of (row_nodes "home" (-50)) = "home" ++ "-50" ++ " dBm".
Proof.
  apply (plain_ssid_row_shows_ssid_and_rssi home "home" (-50)%Z).
  - now split.
  - reflexivity.
  - vm_compute. discriminate.
  - now repeat split.
Defined.


















(** Two networks with plain names, and the id [error]. *)
Lemma scan_of_plain_names_brings_no_id_example :
  let p' := scan_settled (scan_body [home; cafe]) initial_page in
  in_list "error" p' = None /\
  controls_valid (box_children (networks p')) = true.
Proof.
  apply (scan_of_plain_names_brings_no_id
           (JObj [("networks", JArr [home; cafe])]) [home; cafe] initial_page "error").
  - reflexivity.
  - discriminate.
  - repeat constructor.
    + exists "home", (-50)%Z.
      repeat split; try reflexivity. vm_compute. discriminate.
    + exists "cafe", (-71)%Z.
      repeat split; try reflexivity. vm_compute. discriminate.
Defined.
